(** * DataFlow Analytics: metrics summary service and document search

    A shallow embedding of [dataflow_analytics/analytics.py],
    [dataflow_analytics/storage.py], [dataflow_analytics/rag.py], of
    [run_job] and [write_metrics_jsonl] of
    [dataflow_analytics/jobs/transform_events.py] and of the route
    [/docs/search] of [dataflow_analytics/api/app.py], together with the
    properties of these functions.

    Python values are embedded as follows.  A [str] is the list of its code
    points, [bytes] a list of [Byte.byte], an [int] a [Z].  A function that
    can raise returns a [result]: [Ok v] when it returns [v], [Raise e] when
    the exception [e] leaves it.  A [dict] is an association list in
    insertion order, which is the order Python keeps. *)

From Stdlib Require Import ZArith NArith String Ascii.
From Stdlib.Strings Require Import Byte.
From Stdlib Require Import Qcanon.
From stdpp Require Import base option list numbers gmap sorting.

Local Open Scope Z_scope.
Set Warnings "-register-all".

(** ** Strings *)

(** A Python [str]: the list of its Unicode code points. *)
Abbreviation str := (list N).

(** The [str] written by an ASCII literal. *)
Definition pystr (s : string) : str :=
  N_of_ascii <$> list_ascii_of_string s.

(** ** Exceptions and results *)

(** The exceptions the modelled code can meet.  Every one of them is a
    subclass of Python's [Exception]. *)
Inductive exn : Type :=
  | JSONDecodeError
  | ValueError
  | TypeError
  | AttributeError
  | OverflowError
  | RecursionError
  | UnicodeDecodeError
  | NoSuchKey               (* botocore ClientError, code NoSuchKey *)
  | NoSuchBucket            (* botocore ClientError, code NoSuchBucket *)
  | EndpointConnectionError
  | IsADirectoryError
  | IndexError
  | FileNotFoundError
  | UnicodeEncodeError
  | ParamValidationError    (* botocore: a name the client refuses *)
  | Py4JError               (* py4j: a call into the JVM of Spark that fails *)
  | ValidationError.        (* pydantic: a value its model refuses *)

#[global] Instance exn_eq_dec : EqDecision exn.
Proof. solve_decision. Defined.

Inductive result (A : Type) : Type :=
  | Ok (a : A)
  | Raise (e : exn).
Arguments Ok {A} a.
Arguments Raise {A} e.

#[global] Instance result_ret : MRet result := fun A a => Ok a.
#[global] Instance result_bind : MBind result := fun A B f m =>
  match m with
  | Ok a => f a
  | Raise e => Raise e
  end.
#[global] Instance result_fmap : FMap result := fun A B f m =>
  match m with
  | Ok a => Ok (f a)
  | Raise e => Raise e
  end.

(** [raises m]: the call does not return. *)
Definition raises {A} (m : result A) : Prop := ∃ e, m = Raise e.

(** The value of an [option] library call that raises [e] on [None]. *)
Definition or_raise {A} (e : exn) (o : option A) : result A :=
  match o with
  | Some a => Ok a
  | None => Raise e
  end.

(** ** [str] methods *)

(** [str.isspace] on one code point (the Unicode whitespace property as
    CPython implements it). *)
Definition isspace (c : N) : bool :=
  ((9 <=? c) && (c <=? 13) || (28 <=? c) && (c <=? 32) || (c =? 133)
   || (c =? 160) || (c =? 5760) || (8192 <=? c) && (c <=? 8202)
   || (c =? 8232) || (c =? 8233) || (c =? 8239) || (c =? 8287)
   || (c =? 12288))%N.

Fixpoint lstrip (s : str) : str :=
  match s with
  | c :: s' => if isspace c then lstrip s' else s
  | [] => []
  end.

Definition rstrip (s : str) : str := reverse (lstrip (reverse s)).

(** [s.strip()] *)
Definition strip (s : str) : str := rstrip (lstrip s).

(** The line boundaries of [str.splitlines], apart from the pair CR LF. *)
Definition is_linebreak (c : N) : bool :=
  ((10 <=? c) && (c <=? 13) || (28 <=? c) && (c <=? 30) || (c =? 133)
   || (c =? 8232) || (c =? 8233))%N.

(** [cur] is the line read so far, in reverse. *)
Fixpoint splitlines_from (cur : str) (s : str) : list str :=
  match s with
  | [] => match cur with [] => [] | _ => [reverse cur] end
  | c :: rest =>
      if is_linebreak c then
        match c, rest with
        | 13%N, 10%N :: rest' => reverse cur :: splitlines_from [] rest'
        | _, _ => reverse cur :: splitlines_from [] rest
        end
      else splitlines_from (c :: cur) rest
  end.

(** [s.splitlines()] *)
Definition splitlines (s : str) : list str := splitlines_from [] s.

(** ** Floats *)

(** A Python [float], an IEEE 754 binary64 value: [FFin neg m e] is
    [(-1)^neg * m * 2^e].  The zeros are the values with [m = 0]. *)
Inductive pyfloat : Type :=
  | FNaN
  | FInf (neg : bool)
  | FFin (neg : bool) (m : N) (e : Z).

(** [num / den] rounded to the nearest integer, ties to even. *)
Definition round_half_even (num den : Z) : Z :=
  let q := num / den in
  let r := num mod den in
  if 2 * r <? den then q
  else if 2 * r =? den then (if Z.even q then q else q + 1)
  else q + 1.

(** The binary64 value nearest to [p / q], for [0 < p] and [0 < q]: what
    [float] makes of a decimal literal.  A result of [2^1024] or more is an
    infinity; below [2^-1022] the spacing is that of the subnormals. *)
Definition binary64_of_ratio (neg : bool) (p q : Z) : pyfloat :=
  let k0 := Z.log2 p - Z.log2 q in
  let k := if p * 2 ^ Z.max 0 (- k0) <? q * 2 ^ Z.max 0 k0 then k0 - 1 else k0 in
  let ex := Z.max (k - 52) (-1074) in
  let m := round_half_even (p * 2 ^ Z.max 0 (- ex)) (q * 2 ^ Z.max 0 ex) in
  if 2 ^ (1024 + 1074) <=? m * 2 ^ (ex + 1074) then FInf neg
  else FFin neg (Z.to_N m) ex.

(** The float written [digits * 10^exp10], with sign [neg]. *)
Definition float_of_decimal (neg : bool) (digits : Z) (exp10 : Z) : pyfloat :=
  if digits =? 0 then FFin neg 0 0
  else if 0 <=? exp10 then binary64_of_ratio neg (digits * 10 ^ exp10) 1
  else binary64_of_ratio neg digits (10 ^ (- exp10)).

(** [int(x)] for a float [x]: truncation towards zero. *)
Definition float_trunc (x : pyfloat) : result Z :=
  match x with
  | FNaN => Raise ValueError
  | FInf _ => Raise OverflowError
  | FFin neg m e =>
      let a := if 0 <=? e then Z.of_N m * 2 ^ e else Z.of_N m / 2 ^ (- e) in
      Ok (if neg then - a else a)
  end.

(** ** Values produced by the JSON decoder *)

Inductive value : Type :=
  | VNull
  | VBool (b : bool)
  | VInt (z : Z)
  | VFloat (x : pyfloat)
  | VStr (s : str)
  | VList (l : list value)
  | VDict (d : list (str * value)).

(** [bool(v)] *)
Definition truthy (v : value) : bool :=
  match v with
  | VNull => false
  | VBool b => b
  | VInt z => negb (z =? 0)
  | VFloat (FFin _ m _) => negb (m =? 0)%N
  | VFloat _ => true
  | VStr s => match s with [] => false | _ => true end
  | VList l => match l with [] => false | _ => true end
  | VDict d => match d with [] => false | _ => true end
  end.

(** [d.get(k)] on the association list of a dict with [str] keys. *)
Fixpoint dict_get (d : list (str * value)) (k : str) : option value :=
  match d with
  | [] => None
  | (k', v) :: d' => if decide (k' = k) then Some v else dict_get d' k
  end.

(** [d[k] = v]: the first binding of [k] keeps its place and takes the new
    value, a new key goes to the end. *)
Fixpoint dict_set (d : list (str * value)) (k : str) (v : value)
  : list (str * value) :=
  match d with
  | [] => [(k, v)]
  | (k', v') :: d' =>
      if decide (k' = k) then (k', v) :: d' else (k', v') :: dict_set d' k v
  end.

(** ** The JSON decoder: [json.loads]

    The decoder follows CPython's scanner.  Whitespace is space, tab, line
    feed and carriage return.  The constants [NaN], [Infinity] and
    [-Infinity] are accepted.  An integer literal of more than 4300 digits
    raises [ValueError] (the interpreter's limit on integer strings).
    The scanner enters one recursive call of the interpreter for every
    array and every object it opens, the empty ones included, and raises
    [RecursionError] when none is left: [depth] is the number of calls
    left. *)
Module Json.

Definition is_ws (c : N) : bool :=
  ((c =? 32) || (c =? 9) || (c =? 10) || (c =? 13))%N.

Fixpoint skip_ws (s : str) : str :=
  match s with
  | c :: s' => if is_ws c then skip_ws s' else s
  | [] => []
  end.

Definition is_digit (c : N) : bool := ((48 <=? c) && (c <=? 57))%N.

Fixpoint span_digits (s : str) : str * str :=
  match s with
  | c :: s' =>
      if is_digit c then let '(ds, r) := span_digits s' in (c :: ds, r)
      else ([], s)
  | [] => ([], [])
  end.

Definition digits_value (ds : str) : Z :=
  foldl (fun a d => 10 * a + (Z.of_N d - 48)) 0 ds.

Definition hex_digit (c : N) : option N :=
  if is_digit c then Some (c - 48)%N
  else if ((97 <=? c) && (c <=? 102))%N then Some (c - 87)%N
  else if ((65 <=? c) && (c <=? 70))%N then Some (c - 55)%N
  else None.

Definition hex4 (a b c d : N) : option N :=
  a ← hex_digit a; b ← hex_digit b; c ← hex_digit c; d ← hex_digit d;
  Some (((a * 16 + b) * 16 + c) * 16 + d)%N.

Definition is_high_surrogate (c : N) : bool := ((55296 <=? c) && (c <=? 56319))%N.
Definition is_low_surrogate (c : N) : bool := ((56320 <=? c) && (c <=? 57343))%N.
Definition join_surrogates (hi lo : N) : N :=
  (65536 + (hi - 55296) * 1024 + (lo - 56320))%N.

(** The character written by a one-letter escape. *)
Definition simple_escape (c : N) : option N :=
  match c with
  | 34 => Some 34 | 92 => Some 92 | 47 => Some 47
  | 98 => Some 8 | 102 => Some 12 | 110 => Some 10
  | 114 => Some 13 | 116 => Some 9
  | _ => None
  end%N.

(** The body of a string literal, after its opening quote: the string and
    the text after the closing quote.  [acc] is the string read so far, in
    reverse.  A high surrogate escape followed by a low surrogate escape
    is one code point. *)
Fixpoint scanstring (acc : str) (s : str) : option (str * str) :=
  match s with
  | [] => None
  | 34%N :: rest => Some (reverse acc, rest)
  | 92%N :: [] => None
  | 92%N :: 117%N :: rest =>
      match rest with
      | h1 :: h2 :: h3 :: h4 :: rest1 =>
          c ← hex4 h1 h2 h3 h4;
          if is_high_surrogate c then
            match rest1 with
            | 92%N :: 117%N :: g1 :: g2 :: g3 :: g4 :: ((_ :: _) as rest2) =>
                c2 ← hex4 g1 g2 g3 g4;
                if is_low_surrogate c2
                then scanstring (join_surrogates c c2 :: acc) rest2
                else scanstring (c :: acc) rest1
            | _ => scanstring (c :: acc) rest1
            end
          else scanstring (c :: acc) rest1
      | _ => None
      end
  | 92%N :: esc :: rest =>
      c ← simple_escape esc; scanstring (c :: acc) rest
  | c :: rest =>
      if (c <? 32)%N then None else scanstring (c :: acc) rest
  end.

(** [after p s]: the rest of [s] after its prefix [p]. *)
Fixpoint after (p s : str) : option str :=
  match p, s with
  | [], _ => Some s
  | a :: p', b :: s' => if decide (a = b) then after p' s' else None
  | _ :: _, [] => None
  end.

(** The interpreter's limit on the digits of an integer string. *)
Definition int_max_str_digits : nat := 4300.

(** A number literal at the head of [s]. *)
Definition match_number (s : str) : result (value * str) :=
  let '(neg, s1) := match s with 45%N :: s' => (true, s') | _ => (false, s) end in
  match s1 with
  | [] => Raise JSONDecodeError
  | c :: s2 =>
      if negb (is_digit c) then Raise JSONDecodeError else
      let '(ipart, s3) :=
        if (c =? 48)%N then ([c], s2)
        else let '(ds, r) := span_digits s2 in (c :: ds, r) in
      let '(frac, s4) :=
        match s3 with
        | 46%N :: d :: s' =>
            if is_digit d
            then let '(ds, r) := span_digits s' in (Some (d :: ds), r)
            else (None, s3)
        | _ => (None, s3)
        end in
      let '(expo, s5) :=
        match s4 with
        | e :: s' =>
            if ((e =? 101) || (e =? 69))%N then
              let '(sgn, s'') :=
                match s' with
                | 45%N :: t => (-1, t)
                | 43%N :: t => (1, t)
                | _ => (1, s')
                end in
              match span_digits s'' with
              | ([], _) => (None, s4)
              | (ds, r) => (Some (sgn * digits_value ds), r)
              end
            else (None, s4)
        | [] => (None, s4)
        end in
      match frac, expo with
      | None, None =>
          if decide (int_max_str_digits < length ipart)%nat then Raise ValueError
          else Ok (VInt (if neg then - digits_value ipart else digits_value ipart), s5)
      | _, _ =>
          let fd := default [] frac in
          Ok (VFloat (float_of_decimal neg (digits_value (ipart ++ fd))
                        (default 0 expo - Z.of_nat (length fd))), s5)
      end
  end.

(** The interpreter's recursion limit, [sys.getrecursionlimit()], which
    the program does not change. *)
Definition recursion_limit : nat := 1000.

(** One JSON value at the head of [s], and the text after it.  [fuel]
    bounds the steps of the scanner and is not exhausted when it starts at
    twice the length of the text, plus two. *)
Fixpoint scan_once (fuel depth : nat) (s : str) {struct fuel} : result (value * str) :=
  match fuel with
  | O => Raise RecursionError
  | S fuel =>
      match s with
      | 34%N :: rest =>
          '(k, r) ← or_raise JSONDecodeError (scanstring [] rest);
          Ok (VStr k, r)
      | 123%N :: rest =>
          match depth with
          | O => Raise RecursionError
          | S depth =>
              match skip_ws rest with
              | 125%N :: r => Ok (VDict [], r)
              | s' => parse_object fuel depth [] s'
              end
          end
      | 91%N :: rest =>
          match depth with
          | O => Raise RecursionError
          | S depth =>
              match skip_ws rest with
              | 93%N :: r => Ok (VList [], r)
              | s' => parse_array fuel depth [] s'
              end
          end
      | _ =>
          match after (pystr "null") s, after (pystr "true") s,
                after (pystr "false") s, after (pystr "NaN") s,
                after (pystr "Infinity") s, after (pystr "-Infinity") s with
          | Some r, _, _, _, _, _ => Ok (VNull, r)
          | _, Some r, _, _, _, _ => Ok (VBool true, r)
          | _, _, Some r, _, _, _ => Ok (VBool false, r)
          | _, _, _, Some r, _, _ => Ok (VFloat FNaN, r)
          | _, _, _, _, Some r, _ => Ok (VFloat (FInf false), r)
          | _, _, _, _, _, Some r => Ok (VFloat (FInf true), r)
          | _, _, _, _, _, _ => match_number s
          end
      end
  end
(** The elements of an array, from the head of an element on. *)
with parse_array (fuel depth : nat) (acc : list value) (s : str) {struct fuel}
  : result (value * str) :=
  match fuel with
  | O => Raise RecursionError
  | S fuel =>
      '(v, r) ← scan_once fuel depth s;
      match skip_ws r with
      | 93%N :: r' => Ok (VList (acc ++ [v]), r')
      | 44%N :: r' => parse_array fuel depth (acc ++ [v]) (skip_ws r')
      | _ => Raise JSONDecodeError
      end
  end
(** The members of an object, from the quote of a member name on. *)
with parse_object (fuel depth : nat) (acc : list (str * value)) (s : str)
    {struct fuel} : result (value * str) :=
  match fuel with
  | O => Raise RecursionError
  | S fuel =>
      match s with
      | 34%N :: r0 =>
          '(k, r1) ← or_raise JSONDecodeError (scanstring [] r0);
          match skip_ws r1 with
          | 58%N :: r2 =>
              '(v, r3) ← scan_once fuel depth (skip_ws r2);
              match skip_ws r3 with
              | 125%N :: r' => Ok (VDict (dict_set acc k v), r')
              | 44%N :: r' => parse_object fuel depth (dict_set acc k v) (skip_ws r')
              | _ => Raise JSONDecodeError
              end
          | _ => Raise JSONDecodeError
          end
      | _ => Raise JSONDecodeError
      end
  end.

(** [json.loads(s)], called with the whole recursion limit left; the frames
    of the callers, which are those of the program that runs the service,
    take their number off. *)
Definition loads (s : str) : result value :=
  '(v, r) ← scan_once (2 * length s + 2) recursion_limit (skip_ws s);
  match skip_ws r with
  | [] => Ok v
  | _ => Raise JSONDecodeError
  end.

End Json.

(** ** UTF-8 *)

(** [b.decode("utf-8")]: [None] when Python raises [UnicodeDecodeError]
    (a stray or missing continuation byte, an overlong form, a surrogate,
    a code point above U+10FFFF). *)
Module Utf8.

Definition is_cont (x : N) : bool := ((128 <=? x) && (x <=? 191))%N.

Fixpoint decode (b : list byte) : option str :=
  match b with
  | [] => Some []
  | b0 :: r0 =>
      let x0 := Byte.to_N b0 in
      if (x0 <? 128)%N then cons x0 <$> decode r0
      else if ((194 <=? x0) && (x0 <=? 223))%N then
        match r0 with
        | b1 :: r1 =>
            let x1 := Byte.to_N b1 in
            if is_cont x1
            then cons ((x0 - 192) * 64 + (x1 - 128))%N <$> decode r1
            else None
        | _ => None
        end
      else if ((224 <=? x0) && (x0 <=? 239))%N then
        match r0 with
        | b1 :: b2 :: r2 =>
            let x1 := Byte.to_N b1 in
            let x2 := Byte.to_N b2 in
            let c := (((x0 - 224) * 64 + (x1 - 128)) * 64 + (x2 - 128))%N in
            if is_cont x1 && is_cont x2 && (2048 <=? c)%N
               && negb ((55296 <=? c) && (c <=? 57343))%N
            then cons c <$> decode r2
            else None
        | _ => None
        end
      else if ((240 <=? x0) && (x0 <=? 244))%N then
        match r0 with
        | b1 :: b2 :: b3 :: r3 =>
            let x1 := Byte.to_N b1 in
            let x2 := Byte.to_N b2 in
            let x3 := Byte.to_N b3 in
            let c := ((((x0 - 240) * 64 + (x1 - 128)) * 64 + (x2 - 128)) * 64
                      + (x3 - 128))%N in
            if is_cont x1 && is_cont x2 && is_cont x3
               && (65536 <=? c)%N && (c <=? 1114111)%N
            then cons c <$> decode r3
            else None
        | _ => None
        end
      else None
  end.

End Utf8.

(** ** storage.py: the object store adapter *)

(** The state of the S3 service the client talks to: whether it can be
    reached, and the objects of each bucket. *)
Record S3 : Type := {
  reachable : bool;
  buckets : gmap str (gmap str (list byte));
}.

(** The fields of [Settings] the modelled code reads. *)
Record Settings : Type := {
  s3_bucket : str;
  s3_prefix : str;
}.

(** The defaults of [config.py]. *)
Definition default_settings : Settings :=
  {| s3_bucket := pystr "dfa-analytics"; s3_prefix := pystr "aggregates" |}.

Record S3Storage : Type := {
  bucket : str;
  prefix : str;
}.

Fixpoint lstrip_char (c : N) (s : str) : str :=
  match s with
  | c' :: s' => if decide (c' = c) then lstrip_char c s' else s
  | [] => []
  end.

(** [s.strip("/")] *)
Definition strip_slash (s : str) : str :=
  reverse (lstrip_char 47%N (reverse (lstrip_char 47%N s))).

(** [S3Storage(bucket, prefix, cfg)], with [(prefix or "").strip("/")]. *)
Definition S3Storage_init (b : str) (p : option str) : S3Storage :=
  {| bucket := b; prefix := strip_slash (default [] p) |}.

(** [S3Storage.key] *)
Definition key (self : S3Storage) (name : str) : str :=
  match prefix self with
  | [] => name
  | p => p ++ pystr "/" ++ name
  end.

(** [client.get_object(Bucket=..., Key=...)["Body"].read()] *)
Definition get_object (w : S3) (b k : str) : result (list byte) :=
  if negb (reachable w) then Raise EndpointConnectionError
  else match buckets w !! b with
       | None => Raise NoSuchBucket
       | Some objs => or_raise NoSuchKey (objs !! k)
       end.

(** [S3Storage.download_text] *)
Definition download_text (w : S3) (self : S3Storage) (k : str) : result str :=
  body ← get_object w (bucket self) k;
  or_raise UnicodeDecodeError (Utf8.decode body).

(** ** analytics.py: loading the metrics *)

Record AnalyticsService : Type := {
  storage : S3Storage;
  metrics_key : str;
}.

(** [AnalyticsService.__init__] *)
Definition AnalyticsService_init (cfg : Settings) : AnalyticsService :=
  let st := S3Storage_init (s3_bucket cfg) (Some (s3_prefix cfg)) in
  {| storage := st; metrics_key := key st (pystr "metrics_by_day.jsonl") |}.

(** The loop of [load_metrics] over the lines of the text; [rows] is the
    list built so far. *)
Fixpoint load_rows (lines : list str) (rows : list value) : result (list value) :=
  match lines with
  | [] => Ok rows
  | line :: lines' =>
      let line := strip line in
      match line with
      | [] => load_rows lines' rows
      | _ => row ← Json.loads line; load_rows lines' (rows ++ [row])
      end
  end.

(** [AnalyticsService.load_metrics] *)
Definition load_metrics (w : S3) (self : AnalyticsService) : result (list value) :=
  match download_text w (storage self) (metrics_key self) with
  | Raise _ => Ok []
  | Ok text => load_rows (splitlines text) []
  end.

(** ** Dict keys

    [event_types] is keyed by values of the rows.  Two keys are the same
    when Python finds them equal: a str only to the same str; numbers by
    their numerical value, whatever their type ([1 == 1.0 == True]); the
    decoder's [NaN], which is one object, to itself.  [dkey] is the class
    of a key under this equality; lists and dicts have none (they are
    unhashable). *)
Inductive dkey : Type :=
  | KNone
  | KStr (s : str)
  | KNaN
  | KInf (neg : bool)
  | KZero
  | KNum (neg : bool) (m : positive) (e : Z).    (* m odd: (-1)^neg * m * 2^e *)

#[global] Instance dkey_eq_dec : EqDecision dkey.
Proof. solve_decision. Defined.

Fixpoint odd_part (p : positive) : positive * Z :=
  match p with
  | xO p' => let '(q, k) := odd_part p' in (q, k + 1)
  | _ => (p, 0)
  end.

Definition num_key (neg : bool) (m : N) (e : Z) : dkey :=
  match m with
  | N0 => KZero
  | Npos p => let '(q, k) := odd_part p in KNum neg q (e + k)
  end.

Definition hash_key (v : value) : option dkey :=
  match v with
  | VNull => Some KNone
  | VBool b => Some (if b then KNum false 1 0 else KZero)
  | VInt z => Some (num_key (z <? 0) (Z.abs_N z) 0)
  | VFloat FNaN => Some KNaN
  | VFloat (FInf neg) => Some (KInf neg)
  | VFloat (FFin neg m e) => Some (num_key neg m e)
  | VStr s => Some (KStr s)
  | VList _ | VDict _ => None
  end.

(** The value bound to a key of class [k]. *)
Fixpoint types_find (d : list (value * Z)) (k : dkey) : option Z :=
  match d with
  | [] => None
  | (k', n) :: d' =>
      if decide (hash_key k' = Some k) then Some n else types_find d' k
  end.

(** Binding [n] to the key [key] of class [k]: a key already there keeps its
    place, a new one goes to the end. *)
Fixpoint types_put (d : list (value * Z)) (k : dkey) (key : value) (n : Z)
  : list (value * Z) :=
  match d with
  | [] => [(key, n)]
  | (k', n') :: d' =>
      if decide (hash_key k' = Some k) then (k', n) :: d'
      else (k', n') :: types_put d' k key n
  end.

(** [d.get(key, dflt)] *)
Definition types_get (d : list (value * Z)) (key : value) (dflt : Z) : result Z :=
  k ← or_raise TypeError (hash_key key);
  Ok (default dflt (types_find d k)).

(** [d[key] = n] *)
Definition types_set (d : list (value * Z)) (key : value) (n : Z)
  : result (list (value * Z)) :=
  k ← or_raise TypeError (hash_key key);
  Ok (types_put d k key n).

(** ** Dates *)

(** A [datetime.date]. *)
Record date : Type := { year : N; month : N; day : N }.

#[global] Instance date_eq_dec : EqDecision date.
Proof. solve_decision. Defined.

(** [a < b] on dates. *)
Definition date_lt (a b : date) : bool :=
  ((year a <? year b)
   || (year a =? year b) && ((month a <? month b)
                             || (month a =? month b) && (day a <? day b)))%N.

Definition date_le (a b : date) : Prop := date_lt b a = false.

(** [min(d :: ds)] and [max(d :: ds)]: the first least, the first greatest. *)
Definition date_min (d : date) (ds : list date) : date :=
  foldl (fun m x => if date_lt x m then x else m) d ds.
Definition date_max (d : date) (ds : list date) : date :=
  foldl (fun m x => if date_lt m x then x else m) d ds.

(** The decimal digits of [n], least significant first; [fuel] bounds their
    number. *)
Fixpoint decimal_rev (fuel : nat) (n : N) : str :=
  match fuel with
  | O => []
  | S fuel =>
      ((48 + n mod 10)%N)
        :: (if (n <? 10)%N then [] else decimal_rev fuel (n / 10)%N)
  end.

(** [n] in decimal, padded with zeros to [width] digits: [%0<width>d]. *)
Definition zero_padded (width : nat) (n : N) : str :=
  let ds := reverse (decimal_rev (S (N.to_nat (N.log2 n))) n) in
  replicate (width - length ds) 48%N ++ ds.

(** [d.isoformat()] *)
Definition isoformat (d : date) : str :=
  zero_padded 4 (year d) ++ pystr "-" ++ zero_padded 2 (month d)
    ++ pystr "-" ++ zero_padded 2 (day d).

(** ** analytics.py: the summary *)

(** The value of [date_range]: a dict with the keys [start] and [end]. *)
Record DateRange : Type := { start : str; end_ : str }.

Record MetricsSummary : Type := {
  total_events : Z;
  event_types : list (value * Z);
  dates : option DateRange;
  daily_unique_users_sum : Z;
}.

(** [row.get(k, dflt)] *)
Definition row_get (row : value) (k : str) (dflt : value) : result value :=
  match row with
  | VDict d => Ok (default dflt (dict_get d k))
  | _ => Raise AttributeError
  end.

(** The local variables of the loop of [summary]. *)
Record summary_state : Type := {
  st_total : Z;
  st_unique : Z;
  st_types : list (value * Z);
  st_dates : list date;
}.

Section Summary.

(** Two library functions are left open.  [int_of_str s] is [int(s)] for a
    str [s], and [fromisoformat s] is [date.fromisoformat(s)]; each is
    [None] when Python raises [ValueError].  The date formats accepted
    differ between Python versions. *)
Variable int_of_str : str → option Z.
Variable fromisoformat : str → option date.

(** [int(v)] *)
Definition py_int (v : value) : result Z :=
  match v with
  | VInt z => Ok z
  | VBool b => Ok (if b then 1 else 0)
  | VFloat x => float_trunc x
  | VStr s => or_raise ValueError (int_of_str s)
  | VNull | VList _ | VDict _ => Raise TypeError
  end.

(** [int(row.get(name, 0))] *)
Definition int_field (row : value) (name : string) : result Z :=
  v ← row_get row (pystr name) (VInt 0); py_int v.

(** [row.get("event_type") or "unknown"] *)
Definition type_field (row : value) : result value :=
  v ← row_get row (pystr "event_type") VNull;
  Ok (if truthy v then v else VStr (pystr "unknown")).

(** The date a row adds to [dates], if any: [date.fromisoformat] raises
    [TypeError] on a value that is not a str, which the [except
    ValueError] clause lets through. *)
Definition date_field (row : value) : result (option date) :=
  event_date ← row_get row (pystr "event_date") VNull;
  if truthy event_date then
    match event_date with
    | VStr s => Ok (fromisoformat s)
    | _ => Raise TypeError
    end
  else Ok None.

(** The body of the loop. *)
Definition summary_row (st : summary_state) (row : value) : result summary_state :=
  count ← int_field row "event_count";
  unique_users ← int_field row "unique_users";
  let total_events := st_total st + count in
  let daily_unique_users_sum := st_unique st + unique_users in
  event_type ← type_field row;
  old ← types_get (st_types st) event_type 0;
  event_types ← types_set (st_types st) event_type (old + count);
  d ← date_field row;
  Ok {| st_total := total_events;
        st_unique := daily_unique_users_sum;
        st_types := event_types;
        st_dates := match d with
                    | Some d => st_dates st ++ [d]
                    | None => st_dates st
                    end |}.

Fixpoint summary_loop (rows : list value) (st : summary_state) : result summary_state :=
  match rows with
  | [] => Ok st
  | row :: rows' => st' ← summary_row st row; summary_loop rows' st'
  end.

(** What [summary] makes of the rows it has loaded. *)
Definition summarize (rows : list value) : result MetricsSummary :=
  st ← summary_loop rows
         {| st_total := 0; st_unique := 0; st_types := []; st_dates := [] |};
  let date_range :=
    match st_dates st with
    | [] => None
    | d :: ds => Some {| start := isoformat (date_min d ds);
                         end_ := isoformat (date_max d ds) |}
    end in
  Ok {| total_events := st_total st;
        event_types := st_types st;
        dates := date_range;
        daily_unique_users_sum := st_unique st |}.

(** [AnalyticsService.summary] *)
Definition summary (w : S3) (self : AnalyticsService) : result MetricsSummary :=
  rows ← load_metrics w self; summarize rows.

End Summary.

(** ** Reference implementations of the two library functions *)

(** [int(s)] for a str [s] of ASCII characters: surrounding whitespace, an
    optional sign, decimal digits with single underscores between them, at
    most 4300 digits.  Python also accepts the decimal digits and the
    whitespace of other scripts; this function does not. *)
Module IntOfStr.

Definition is_ascii_space (c : N) : bool := ((9 <=? c) && (c <=? 13) || (c =? 32))%N.

Fixpoint lstrip_ascii (s : str) : str :=
  match s with
  | c :: s' => if is_ascii_space c then lstrip_ascii s' else s
  | [] => []
  end.

(** The digits from a place where a digit must stand: their value and
    their number. *)
Fixpoint digits (s : str) (acc : Z) (n : nat) : option (Z * nat) :=
  match s with
  | [] => None
  | c :: s' =>
      if Json.is_digit c then
        let acc' := 10 * acc + (Z.of_N c - 48) in
        match s' with
        | [] => Some (acc', S n)
        | 95%N :: s'' => digits s'' acc' (S n)
        | _ => digits s' acc' (S n)
        end
      else None
  end.

Definition parse (s : str) : option Z :=
  let s := reverse (lstrip_ascii (reverse (lstrip_ascii s))) in
  let '(neg, s) :=
    match s with
    | 45%N :: s' => (true, s')
    | 43%N :: s' => (false, s')
    | _ => (false, s)
    end in
  '(z, n) ← digits s 0 0;
  if decide (Json.int_max_str_digits < n)%nat then None
  else Some (if neg then - z else z).

End IntOfStr.

(** [date.fromisoformat(s)] for the format [YYYY-MM-DD], the one every
    Python version accepts. *)
Module IsoDate.

Definition is_leap (y : N) : bool :=
  ((y mod 4 =? 0) && (negb (y mod 100 =? 0) || (y mod 400 =? 0)))%N.

Definition days_in_month (y m : N) : N :=
  match m with
  | 2 => if is_leap y then 29 else 28
  | 4 | 6 | 9 | 11 => 30
  | _ => 31
  end%N.

Definition two (a b : N) : option N :=
  if Json.is_digit a && Json.is_digit b then Some ((a - 48) * 10 + (b - 48))%N
  else None.

Definition parse (s : str) : option date :=
  match s with
  | [y1; y2; y3; y4; 45%N; m1; m2; 45%N; d1; d2] =>
      yh ← two y1 y2; yl ← two y3 y4; m ← two m1 m2; d ← two d1 d2;
      let y := (yh * 100 + yl)%N in
      if ((1 <=? y) && (1 <=? m) && (m <=? 12) && (1 <=? d)
          && (d <=? days_in_month y m))%N
      then Some {| year := y; month := m; day := d |}
      else None
  | _ => None
  end.

End IsoDate.

(** ** Metric rows

    A row of the shape the aggregation job writes: a JSON object whose
    [event_count] and [unique_users] are integers and whose [event_type] and
    [event_date] are strings, each of the four absent, and the two strings
    null or empty, at will.  Other members are allowed. *)

Definition member (row : value) (name : string) : option value :=
  match row with
  | VDict d => dict_get d (pystr name)
  | _ => None
  end.

Definition is_daily_metric (row : value) : bool :=
  match row with
  | VDict _ =>
      match member row "event_count" with None | Some (VInt _) => true | _ => false end
      && match member row "unique_users" with None | Some (VInt _) => true | _ => false end
      && match member row "event_type" with
         | None | Some VNull | Some (VStr _) => true | _ => false end
      && match member row "event_date" with
         | None | Some VNull | Some (VStr _) => true | _ => false end
  | _ => false
  end.

Definition event_count_of (row : value) : Z :=
  match member row "event_count" with Some (VInt z) => z | _ => 0 end.

Definition unique_users_of (row : value) : Z :=
  match member row "unique_users" with Some (VInt z) => z | _ => 0 end.

(** The row's event type, [unknown] when the member is absent, null or
    empty. *)
Definition event_type_of (row : value) : str :=
  match member row "event_type" with
  | Some (VStr (c :: s)) => c :: s
  | _ => pystr "unknown"
  end.

(** The row's date, when it has one that parses. *)
Definition event_date_of (fromisoformat : str → option date) (row : value)
  : option date :=
  match member row "event_date" with
  | Some (VStr (c :: s)) => fromisoformat (c :: s)
  | _ => None
  end.

Definition sum_list (l : list Z) : Z := foldr Z.add 0 l.

(** A list of metric rows. *)
Definition metric_rows (rows : list value) : Prop :=
  Forall (fun r => is_daily_metric r = true) rows.

(** The sum of the counts of the rows of type [t]. *)
Definition count_of_type (t : str) (rows : list value) : Z :=
  sum_list (event_count_of <$> filter (fun r => event_type_of r = t) rows).

(** ** Sorting and slicing *)

(** [sorted]: a stable sort.  [before a b] says that [a] must come before
    [b]; elements neither of which must come before the other keep the
    order they had.  CPython's sort is stable, also under [reverse=True],
    and a stable sort has one result, which this insertion sort computes. *)
Section Sorted.
Context {A : Type} (before : A → A → bool).

Fixpoint insert_sorted (x : A) (l : list A) : list A :=
  match l with
  | [] => [x]
  | y :: l' => if before y x then y :: insert_sorted x l' else x :: l
  end.

Definition py_sorted (l : list A) : list A := foldr insert_sorted [] l.

(** [not_after a b]: [b] need not come before [a]. *)
Definition not_after (a b : A) : Prop := before b a = false.
End Sorted.

(** [l[:k]] for a Python int [k]: a negative [k] counts from the end. *)
Definition slice_to {A} (l : list A) (k : Z) : list A :=
  if 0 <=? k then take (Z.to_nat k) l
  else take (length l - Z.to_nat (- k)) l.

(** [l[i:j]] for [0 <= i] and [0 <= j]. *)
Definition slice {A} (l : list A) (i j : nat) : list A := drop i (take j l).

(** [a < b] on str: the order of the code points. *)
Fixpoint str_lt (a b : str) : bool :=
  match a, b with
  | _, [] => false
  | [], _ :: _ => true
  | x :: a', y :: b' => (x <? y)%N || (x =? y)%N && str_lt a' b'
  end.

(** [a <= b] on str. *)
Definition str_le (a b : str) : Prop := str_lt b a = false.

(** [enumerate(l)] *)
Definition enumerate {A} (l : list A) : list (nat * A) := imap (fun i x => (i, x)) l.

(** ** rag.py: the document store *)

(** What a name of the corpus directory leads to. *)
Inductive node : Type :=
  | File (content : list byte)
  | Directory.

(** An entry of the corpus directory.  A directory is the list of its
    entries, in the order the file system enumerates them. *)
Record dir_entry : Type := { entry_name : str; entry_node : node }.

(** Whether a name matches the pattern [*.md]. *)
Definition is_md (name : str) : bool :=
  bool_decide (drop (length name - 3) name = pystr ".md").

(** [docs_dir.glob("*.md")] *)
Definition glob_md (dir : list dir_entry) : list dir_entry :=
  filter (fun e => is_md (entry_name e) = true) dir.

(** The place of the last full stop of a name. *)
Fixpoint rfind_dot (name : str) (i : nat) (last : option nat) : option nat :=
  match name with
  | [] => last
  | c :: name' => rfind_dot name' (S i) (if (c =? 46)%N then Some i else last)
  end.

(** [path.stem]: the name without its suffix, the suffix running from the
    last full stop, unless that is the first or the last character. *)
Definition stem (name : str) : str :=
  match rfind_dot name 0 None with
  | Some i => if bool_decide (0 < i < length name - 1)%nat then take i name else name
  | None => name
  end.

(** The newline translation of a file read in text mode. *)
Fixpoint universal_newlines (s : str) : str :=
  match s with
  | [] => []
  | 13%N :: s' =>
      match s' with
      | 10%N :: s'' => 10%N :: universal_newlines s''
      | _ => 10%N :: universal_newlines s'
      end
  | c :: s' => c :: universal_newlines s'
  end.

(** [path.read_text(encoding="utf-8")] *)
Definition read_text (e : dir_entry) : result str :=
  match entry_node e with
  | Directory => Raise IsADirectoryError
  | File content => universal_newlines <$> or_raise UnicodeDecodeError (Utf8.decode content)
  end.

(** The document [_load_documents] makes of a path. *)
Definition document_of (e : dir_entry) : result (str * str) :=
  text ← read_text e; Ok (stem (entry_name e), strip text).

(** The order in which [_load_documents] sorts the paths. *)
Definition name_le (a b : dir_entry) : Prop :=
  str_le (entry_name a) (entry_name b).

Record DocumentResult : Type := {
  doc_id : str;
  title : str;
  score : Qc;
  snippet : str;
}.

(** [s.find(q)]: the first place where [q] occurs in [s]. *)
Fixpoint find_from (s q : str) (i : nat) : option nat :=
  if bool_decide (take (length q) s = q) then Some i
  else match s with
       | [] => None
       | _ :: s' => find_from s' q (S i)
       end.

(** [s.replace("_", " ")] *)
Definition underscores_to_spaces (s : str) : str :=
  (fun c => if (c =? 95)%N then 32%N else c) <$> s.

Section DocumentStore.

(** The text library is left open: a fitted [TfidfVectorizer], the matrix
    of the corpus, [fit_transform] on the texts of the corpus (which
    raises [ValueError] when no text has a word that counts), and
    [similarities v m query], which is
    [cosine_similarity(v.transform([query]), m).flatten()].  A similarity
    is a finite float, taken as the rational it denotes.  So are the two
    case mappings of str, which follow the Unicode tables. *)
Variables (Vectorizer Matrix : Type).
Variable fit_transform : list str → result (Vectorizer * Matrix).
Variable similarities : Vectorizer → Matrix → str → list Qc.
Variable str_lower : str → str.
Variable str_title : str → str.

(** The library gives one similarity for each text it was fitted on. *)
Definition row_per_document : Prop :=
  ∀ texts v m query,
    fit_transform texts = Ok (v, m) →
    length (similarities v m query) = length texts.

Record DocumentStore : Type := {
  _documents : list (str * str);
  _vectorizer : option Vectorizer;
  _matrix : option Matrix;
}.

(** The loop of [_load_documents] over the sorted paths. *)
Fixpoint read_documents (paths : list dir_entry) (docs : list (str * str))
  : result (list (str * str)) :=
  match paths with
  | [] => Ok docs
  | path :: paths' =>
      text ← read_text path;
      read_documents paths' (docs ++ [(stem (entry_name path), strip text)])
  end.

(** [DocumentStore(docs_dir)]: [__init__] and [_load_documents]. *)
Definition _load_documents (dir : list dir_entry) : result DocumentStore :=
  let paths :=
    py_sorted (fun a b => str_lt (entry_name a) (entry_name b)) (glob_md dir) in
  docs ← read_documents paths [];
  match docs with
  | [] => Ok {| _documents := docs; _vectorizer := None; _matrix := None |}
  | _ =>
      '(v, m) ← fit_transform (snd <$> docs);
      Ok {| _documents := docs; _vectorizer := Some v; _matrix := Some m |}
  end.

(** [_snippet(text, query)], with [window = 160]. *)
Definition _snippet (text query : str) : str :=
  let window := 160%nat in
  let lowered := str_lower text in
  let q := str_lower query in
  match find_from lowered q 0 with
  | None => strip (take window text)
  | Some pos =>
      let start := (pos - window / 4)%nat in
      let end_ := ((start + window) `min` length text)%nat in
      strip (slice text start end_)
  end.

(** The loop of [search] over the ranked pairs. *)
Fixpoint collect (docs : list (str * str)) (query : str)
    (ranked : list (nat * Qc)) (results : list DocumentResult)
  : result (list DocumentResult) :=
  match ranked with
  | [] => Ok results
  | (idx, sc) :: ranked' =>
      '(id, text) ← or_raise IndexError (docs !! idx);
      collect docs query ranked'
        (results ++ [{| doc_id := id;
                        title := str_title (underscores_to_spaces id);
                        score := sc;
                        snippet := _snippet text query |}])
  end.

(** The ranking of [search]: the pairs of [enumerate(scores)], the greater
    score first. *)
Definition rank (scores : list Qc) : list (nat * Qc) :=
  py_sorted (fun a b => bool_decide (b.2 < a.2)%Qc) (enumerate scores).

(** [DocumentStore.search] *)
Definition search (self : DocumentStore) (query : str) (top_k : Z)
  : result (list DocumentResult) :=
  match _documents self, _vectorizer self, _matrix self with
  | _ :: _, Some v, Some m =>
      let scores := similarities v m query in
      let ranked := rank scores in
      collect (_documents self) query (slice_to ranked top_k) []
  | _, _, _ => Ok []
  end.

(** The route [/docs] of api/app.py. *)
Definition docs_list (store : DocumentStore) : list str :=
  fst <$> _documents store.

(** The result [search] builds for a pair of the ranking. *)
Definition result_of (docs : list (str * str)) (query : str) (p : nat * Qc)
  : option DocumentResult :=
  '(id, text) ← docs !! p.1;
  Some {| doc_id := id;
          title := str_title (underscores_to_spaces id);
          score := p.2;
          snippet := _snippet text query |}.

End DocumentStore.

(** The order of a ranking: the greater score first, and of two equal
    scores the one of the earlier document. *)
Definition ranked_before (a b : nat * Qc) : Prop :=
  (b.2 < a.2)%Qc ∨ a.2 = b.2 ∧ (a.1 < b.1)%nat.

(** ** Data for the examples *)

(** A stand-in for the text library, for examples: it accepts every corpus,
    keeps the texts as the matrix, and scores a text 1 when the query occurs
    in it and 0 otherwise.  The case mappings are the identity. *)
Definition toy_fit_transform (texts : list str) : result (unit * list str) :=
  Ok ((), texts).

Definition toy_similarities (_ : unit) (m : list str) (query : str) : list Qc :=
  (fun text => match find_from text query 0 with
               | Some _ => 1%Qc
               | None => 0%Qc
               end) <$> m.

Definition toy_load (dir : list dir_entry) : result (DocumentStore unit (list str)) :=
  _load_documents unit (list str) toy_fit_transform dir.

Definition toy_search (s : DocumentStore unit (list str)) (query : str) (top_k : Z)
  : result (list DocumentResult) :=
  search unit (list str) toy_similarities id id s query top_k.

Definition text_file (name body : string) : dir_entry :=
  {| entry_name := pystr name; entry_node := File (list_byte_of_string body) |}.

(** The corpus of the API test. *)
Definition docs_ops_support : list dir_entry :=
  [text_file "support.md" "If purchase events drop, re-run the aggregation job.";
   text_file "ops.md" "Ingestion latency should stay under 15 minutes. Check the Spark logs if it grows."].

(** The same corpus beside a text file whose name does not end in [.md]. *)
Definition docs_with_txt : list dir_entry :=
  text_file "notes.txt" "Latency notes." :: docs_ops_support.

(** Two files whose names and whose stems sort differently. *)
Definition docs_a_ab : list dir_entry :=
  [text_file "a.md" "alpha"; text_file "a-b.md" "alpha beta"].


(** The text of a literal with every apostrophe read as a double quote. *)
Definition quoted (s : string) : string :=
  string_of_list_ascii
    ((fun c => if Ascii.eqb c "'"%char then ascii_of_nat 34 else c)
       <$> list_ascii_of_string s).

(** The lines joined by line feeds. *)
Definition joined_lines (ls : list string) : string :=
  String.concat (String (ascii_of_nat 10) EmptyString) ls.

(** A store that holds [body] under the metrics key of the default
    settings. *)
Definition store_with_metrics (body : string) : S3 :=
  {| reachable := true;
     buckets := {[ pystr "dfa-analytics" :=
                     {[ pystr "aggregates/metrics_by_day.jsonl" :=
                          list_byte_of_string body ]} ]} |}.

(** A store whose bucket exists and holds no object. *)
Definition empty_store : S3 :=
  {| reachable := true; buckets := {[ pystr "dfa-analytics" := ∅ ]} |}.

Definition default_service : AnalyticsService :=
  AnalyticsService_init default_settings.

(** The metrics of the API test. *)
Definition metrics_ok : string :=
  quoted (joined_lines
    ["{'event_date': '2026-01-30', 'event_type': 'page_view', 'event_count': 5, 'unique_users': 3}"%string;
     ""%string;
     "{'event_date': '2026-01-30', 'event_type': 'purchase', 'event_count': 2, 'unique_users': 2}"%string]).

(** The same with a line that is not JSON between the two. *)
Definition metrics_malformed : string :=
  quoted (joined_lines
    ["{'event_date': '2026-01-30', 'event_type': 'page_view', 'event_count': 5, 'unique_users': 3}"%string;
     "not json"%string;
     "{'event_date': '2026-01-30', 'event_type': 'purchase', 'event_count': 2, 'unique_users': 2}"%string]).

(** The stores the stand-in library builds from these directories. *)
Definition no_store : DocumentStore unit (list str) :=
  {| _documents := []; _vectorizer := None; _matrix := None |}.

Definition toy_store_ops_support : DocumentStore unit (list str) :=
  Eval vm_compute in
    match toy_load docs_ops_support with Ok s => s | Raise _ => no_store end.

Definition toy_store_a_ab : DocumentStore unit (list str) :=
  Eval vm_compute in
    match toy_load docs_a_ab with Ok s => s | Raise _ => no_store end.

(** The lines [load_metrics] hands to the decoder. *)
Definition nonblank_lines (text : str) : list str :=
  filter (fun l => l ≠ []) (strip <$> splitlines text).

(** The rows of [metrics_ok]. *)
Definition metrics_ok_rows : list value :=
  Eval vm_compute in
    match load_metrics (store_with_metrics metrics_ok) default_service with
    | Ok rows => rows
    | Raise _ => []
    end.

(** ** storage.py: writing to the store *)

(** [s.encode("utf-8")]: [None] when Python raises [UnicodeEncodeError],
    which it does on a surrogate. *)
Module Utf8Encode.

Definition byte_of (n : N) : byte := default x00 (Byte.of_N n).

Definition encode_char (c : N) : option (list byte) :=
  if (c <? 128)%N then Some [byte_of c]
  else if (c <? 2048)%N then
    Some [byte_of (192 + c / 64); byte_of (128 + c mod 64)]
  else if (c <? 65536)%N then
    if ((55296 <=? c) && (c <=? 57343))%N then None
    else Some [byte_of (224 + c / 4096); byte_of (128 + (c / 64) mod 64);
               byte_of (128 + c mod 64)]
  else if (c <=? 1114111)%N then
    Some [byte_of (240 + c / 262144); byte_of (128 + (c / 4096) mod 64);
          byte_of (128 + (c / 64) mod 64); byte_of (128 + c mod 64)]
  else None.

Fixpoint encode (s : str) : option (list byte) :=
  match s with
  | [] => Some []
  | c :: s' => b ← encode_char c; r ← encode s'; Some (b ++ r)
  end.

End Utf8Encode.

(** A call that changes the store: the store it leaves, and what it returns
    or raises.  The store is left as it is at the moment of the exception. *)
Definition store_call (A : Type) : Type := S3 → S3 * result A.

Section StorageWrites.

(** Whether the client and the service accept a bucket name, and a key; the
    client raises [ParamValidationError] on a name it refuses. *)
Variable valid_bucket : str → bool.
Variable valid_key : str → bool.

(** [S3Storage.ensure_bucket]: [head_bucket], and [create_bucket] when that
    raises [ClientError] because there is no such bucket. *)
Definition ensure_bucket (self : S3Storage) : store_call unit := fun w =>
  if negb (valid_bucket (bucket self)) then (w, Raise ParamValidationError)
  else if negb (reachable w) then (w, Raise EndpointConnectionError)
  else match buckets w !! bucket self with
       | Some _ => (w, Ok ())
       | None =>
           ({| reachable := reachable w;
               buckets := <[bucket self := ∅]> (buckets w) |}, Ok ())
       end.

(** [client.put_object(Bucket=b, Key=k, Body=body)]; so is
    [client.upload_file] of a file that holds [body]. *)
Definition put_object (b k : str) (body : list byte) : store_call unit := fun w =>
  if negb (valid_bucket b && valid_key k) then (w, Raise ParamValidationError)
  else if negb (reachable w) then (w, Raise EndpointConnectionError)
  else match buckets w !! b with
       | None => (w, Raise NoSuchBucket)
       | Some objs =>
           ({| reachable := reachable w;
               buckets := <[b := <[k := body]> objs]> (buckets w) |}, Ok ())
       end.

(** [S3Storage.upload_file], for a local file that holds [body]. *)
Definition upload_file (self : S3Storage) (body : list byte) (k : str)
  : store_call unit := fun w =>
  match ensure_bucket self w with
  | (w1, Ok _) => put_object (bucket self) k body w1
  | (w1, Raise e) => (w1, Raise e)
  end.

(** [S3Storage.upload_text] *)
Definition upload_text (self : S3Storage) (text : str) (k : str)
  : store_call unit := fun w =>
  match ensure_bucket self w with
  | (w1, Ok _) =>
      match Utf8Encode.encode text with
      | Some body => put_object (bucket self) k body w1
      | None => (w1, Raise UnicodeEncodeError)
      end
  | (w1, Raise e) => (w1, Raise e)
  end.

End StorageWrites.

(** The object a store holds under a key of a bucket. *)
Definition object_at (w : S3) (b k : str) : option (list byte) :=
  objs ← buckets w !! b; objs !! k.

(** ** jobs/transform_events.py: the aggregation job *)

Section Job.

Variable valid_bucket : str → bool.
Variable valid_key : str → bool.

(** Spark and the local file system are left open.  [build_spark] gives the
    session; [spark_transform session input_path] is [transform_events], the
    data frame of the aggregation; [mkdir output_dir] is
    [output_dir.mkdir(parents=True, exist_ok=True)]; [spark_write_json agg
    output_dir] is the write of [write_metrics_jsonl] followed by
    [metrics_dir.glob("part-*.json")]: the part files found, each with its
    path and what it holds; [spark_stop session] is [spark.stop()].  Each
    raises what Spark or the file system raises. *)
Variables (Session DataFrame : Type).
Variable build_spark : result Session.
Variable spark_transform : Session → str → result DataFrame.
Variable mkdir : str → result unit.
Variable spark_write_json : DataFrame → str → result (list (str * list byte)).
Variable spark_stop : Session → result unit.

(** [write_metrics_jsonl] *)
Definition write_metrics_jsonl (agg_df : DataFrame) (output_dir : str)
  : result (str * list byte) :=
  part_files ← spark_write_json agg_df output_dir;
  match part_files with
  | [] => Raise FileNotFoundError
  | part_file :: _ => Ok part_file
  end.

(** The steps of the [try] block of [run_job] before the upload: the part
    file and what it holds. *)
Definition run_job_steps (spark : Session) (input_path output_dir : str)
  : result (str * list byte) :=
  agg_df ← spark_transform spark input_path;
  _ ← mkdir output_dir;
  write_metrics_jsonl agg_df output_dir.

(** The steps of [run_job] before the upload, [build_spark] included. *)
Definition run_job_stage (input_path output_dir : str) : result (str * list byte) :=
  spark ← build_spark;
  run_job_steps spark input_path output_dir.

(** The [try] block of [run_job]. *)
Definition run_job_try (spark : Session) (input_path output_dir : str)
    (storage : S3Storage) : store_call str := fun w =>
  match run_job_steps spark input_path output_dir with
  | Raise e => (w, Raise e)
  | Ok (part_file, body) =>
      match upload_file valid_bucket valid_key storage body
              (key storage (pystr "metrics_by_day.jsonl")) w with
      | (w1, Ok _) => (w1, Ok part_file)
      | (w1, Raise e) => (w1, Raise e)
      end
  end.

(** [try: body finally: final]: [final] runs whether [body] returns or
    raises, and what it raises replaces the value or the exception of
    [body]. *)
Definition try_finally {A} (body : store_call A) (final : result unit)
  : store_call A := fun w =>
  match body w with
  | (w1, r) =>
      match final with
      | Ok _ => (w1, r)
      | Raise e => (w1, Raise e)
      end
  end.

(** [run_job]: the session is built before the [try], so that nothing is
    stopped when [build_spark] raises. *)
Definition run_job (input_path output_dir : str) (storage : S3Storage)
  : store_call str := fun w =>
  match build_spark with
  | Raise e => (w, Raise e)
  | Ok spark =>
      try_finally (run_job_try spark input_path output_dir storage)
        (spark_stop spark) w
  end.

End Job.

(** ** api/app.py: the route of the document search *)

(** The response of a route: the body of a 200, a 422 of the validation of
    the query parameters, or the 500 that [handle_errors] makes of an
    exception. *)
Inductive response (A : Type) : Type :=
  | Http200 (body : A)
  | Http422
  | Http500 (e : exn).
Arguments Http200 {A} body.
Arguments Http422 {A}.
Arguments Http500 {A} e.

(** [handle_errors]: an exception that leaves the handling of a request,
    be it raised by the route function or by the making of its response,
    gives a 500; a body that was made gives the 200. *)
Definition handle_errors {A} (r : result A) : response A :=
  match r with
  | Ok body => Http200 body
  | Raise e => Http500 e
  end.

Section DocsRoutes.

Variables (Vectorizer Matrix : Type).
Variable similarities : Vectorizer → Matrix → str → list Qc.
Variable str_lower : str → str.
Variable str_title : str → str.

(** pydantic and FastAPI are left open.  [DocumentSearchResponse q results]
    is the construction of the response model, which validates [query] and
    every field of every result and raises [ValidationError] on a value it
    refuses.  [send_response model] is what FastAPI does with the model the
    route function returns: the validation against [response_model] and the
    encoding of the body as JSON, which raise as well (a score that is not
    finite has no JSON form). *)
Variables (Model Body : Type).
Variable DocumentSearchResponse : str → list DocumentResult → result Model.
Variable send_response : Model → result Body.

(** The route [/docs/search]: [q] is required and has at least two
    characters, [k] is 3 unless given and lies between 1 and 10; the
    parameters are given as FastAPI has read them from the query string. *)
Definition docs_search (store : DocumentStore Vectorizer Matrix)
    (q : option str) (k : option Z) : response Body :=
  match q with
  | None => Http422
  | Some q =>
      let k := default 3 k in
      if decide (2 ≤ length q)%nat then
        if decide (1 ≤ k ≤ 10) then
          handle_errors
            (results ← search Vectorizer Matrix similarities str_lower str_title
                          store q k;
             model ← DocumentSearchResponse q results;
             send_response model)
        else Http422
      else Http422
  end.

End DocsRoutes.

(** * Properties *)

(** ** Loading the metrics *)

(** The decoder at the recursion limit: as many nested arrays as the limit
    are decoded, one more raises [RecursionError]. *)
Lemma loads_at_recursion_limit :
  match Json.loads (replicate Json.recursion_limit 91%N
                      ++ replicate Json.recursion_limit 93%N) with
  | Ok _ => True
  | Raise _ => False
  end
  ∧ Json.loads (replicate (S Json.recursion_limit) 91%N
                  ++ replicate (S Json.recursion_limit) 93%N)
    = Raise RecursionError.
Proof.
  split.
  - vm_compute. exact I.
  - vm_compute. reflexivity.
Qed.

Lemma result_bind_Ok {A B} (a : A) (f : A → result B) : (Ok a ≫= f) = f a.
Proof. reflexivity. Qed.

Lemma raises_Raise {A} (e : exn) : raises (@Raise A e).
Proof. by exists e. Qed.

Lemma raises_not_Ok {A} (m : result A) (a : A) : raises m → m ≠ Ok a.
Proof. intros [e ->]. discriminate. Qed.

(** The loop hands the non-blank lines to the decoder, in order, and stops
    at the first one the decoder refuses. *)
Lemma load_rows_ok lines rows vs :
  Forall2 (fun l v => Json.loads l = Ok v)
          (filter (fun l => l ≠ []) (strip <$> lines)) vs →
  load_rows lines rows = Ok (rows ++ vs).
Proof.
  revert rows vs. induction lines as [|line lines IH]; intros rows vs H.
  - apply Forall2_nil_inv_l in H as ->. by rewrite app_nil_r.
  - rewrite fmap_cons, filter_cons in H. cbn [load_rows].
    destruct (strip line) as [|c s] eqn:E.
    + case_decide; [done|]. by apply IH.
    + case_decide; [|done].
      apply Forall2_cons_inv_l in H as (v & vs' & Hv & Hvs & ->).
      rewrite Hv. cbn. rewrite (IH _ _ Hvs). by rewrite <- app_assoc.
Qed.

Lemma load_rows_first_failure lines rows pre l post e :
  filter (fun l => l ≠ []) (strip <$> lines) = pre ++ l :: post →
  Forall (fun l => ∃ v, Json.loads l = Ok v) pre →
  Json.loads l = Raise e →
  load_rows lines rows = Raise e.
Proof.
  revert rows pre. induction lines as [|line lines IH]; intros rows pre H Hpre Hl.
  - by destruct pre.
  - rewrite fmap_cons, filter_cons in H. cbn [load_rows].
    destruct (strip line) as [|c s] eqn:E.
    + case_decide; [done|]. by eapply IH.
    + case_decide; [|done]. destruct pre as [|p pre]; simplify_eq/=.
      * by rewrite Hl.
      * apply Forall_cons in Hpre as [[v Hv] Hpre]. rewrite Hv. cbn.
        by eapply IH.
Qed.

Lemma Exists_first {A} (P Q : A → Prop) (l : list A) :
  (∀ x, x ∈ l → P x ∨ Q x) →
  Exists P l →
  ∃ pre x post, l = pre ++ x :: post ∧ Forall Q pre ∧ P x.
Proof.
  induction l as [|y l IH]; intros Hall Hex; [by apply Exists_nil in Hex|].
  destruct (Hall y) as [Hy|Hy]; [by left| |].
  - exists [], y, l. by repeat split.
  - apply Exists_cons in Hex as [Hex|Hex].
    + exists [], y, l. by repeat split.
    + destruct IH as (pre & x & post & -> & Hpre & Hx); [|done|].
      * intros x Hx. apply Hall. by right.
      * exists (y :: pre), x, post. repeat split; [|done]. by constructor.
Qed.

Lemma result_ok_or_raises {A} (m : result A) : raises m ∨ ∃ a, m = Ok a.
Proof. destruct m as [a|e]; [right; by exists a | left; by exists e]. Qed.

(** C1, as the code has it.  [load_metrics] skips blank lines and nothing
    else.  When the decoder accepts every non-blank line, the result is the
    list of the decoded objects, in the order of the lines.  When it
    refuses a line, the exception of the first such line leaves
    [load_metrics]: no line is dropped and no row is returned. *)
Theorem load_metrics_decodes_or_raises (w : S3) (self : AnalyticsService) (text : str) :
  download_text w (storage self) (metrics_key self) = Ok text →
  (∀ rows,
      Forall2 (fun l v => Json.loads l = Ok v) (nonblank_lines text) rows →
      load_metrics w self = Ok rows)
  ∧ (∀ pre l post e,
        nonblank_lines text = pre ++ l :: post →
        Forall (fun l => ∃ v, Json.loads l = Ok v) pre →
        Json.loads l = Raise e →
        load_metrics w self = Raise e)
  ∧ (Exists (fun l => raises (Json.loads l)) (nonblank_lines text) →
     raises (load_metrics w self)).
Proof.
  intros Hd. unfold load_metrics. rewrite Hd. split_and!.
  - intros rows H. by rewrite (load_rows_ok _ [] rows H).
  - intros pre l post e H Hpre Hl. by eapply load_rows_first_failure.
  - intros Hex.
    apply (Exists_first _ (fun l => ∃ v, Json.loads l = Ok v)) in Hex
      as (pre & l & post & H & Hpre & [e Hl]).
    + exists e. by eapply load_rows_first_failure.
    + intros l _. apply result_ok_or_raises.
Qed.

(** The metrics of the API test load as two rows; with a line that is not
    JSON between them, the load raises. *)
Lemma load_metrics_decodes_or_raises_witness :
  load_metrics (store_with_metrics metrics_ok) default_service = Ok metrics_ok_rows
  ∧ raises (load_metrics (store_with_metrics metrics_malformed) default_service).
Proof.
  split.
  - assert (download_text (store_with_metrics metrics_ok)
              (storage default_service) (metrics_key default_service)
            = Ok (pystr metrics_ok)) as Hd by (vm_compute; reflexivity).
    apply (proj1 (load_metrics_decodes_or_raises _ _ _ Hd)).
    assert (nonblank_lines (pystr metrics_ok)
            = [pystr (quoted "{'event_date': '2026-01-30', 'event_type': 'page_view', 'event_count': 5, 'unique_users': 3}");
               pystr (quoted "{'event_date': '2026-01-30', 'event_type': 'purchase', 'event_count': 2, 'unique_users': 2}")])
      as Hnb by (vm_compute; reflexivity).
    rewrite Hnb. unfold metrics_ok_rows.
    repeat (constructor; [vm_compute; reflexivity|]). constructor.
  - assert (download_text (store_with_metrics metrics_malformed)
              (storage default_service) (metrics_key default_service)
            = Ok (pystr metrics_malformed)) as Hd by (vm_compute; reflexivity).
    apply (proj2 (proj2 (load_metrics_decodes_or_raises _ _ _ Hd))).
    apply Exists_exists. exists (pystr "not json"). split.
    + apply list_elem_of_In. vm_compute. right. left. reflexivity.
    + exists JSONDecodeError. vm_compute. reflexivity.
Defined.

(** C1, as the claim states it, fails.  The second of the three lines of
    this file is not JSON.  The claim has [load_metrics] return the objects
    of the two other lines; it raises. *)
Lemma load_metrics_drops_malformed_line_counterexample :
  let w := store_with_metrics metrics_malformed in
  download_text w (storage default_service) (metrics_key default_service)
  = Ok (pystr metrics_malformed)
  ∧ pystr "not json" ∈ nonblank_lines (pystr metrics_malformed)
  ∧ Json.loads (pystr "not json") = Raise JSONDecodeError
  ∧ load_metrics w default_service = Raise JSONDecodeError
  ∧ load_metrics w default_service ≠ Ok metrics_ok_rows.
Proof.
  cbv zeta. split_and!; try (vm_compute; reflexivity).
  - apply list_elem_of_In. vm_compute. right. left. reflexivity.
  - assert (load_metrics (store_with_metrics metrics_malformed) default_service
            = Raise JSONDecodeError) as -> by (vm_compute; reflexivity).
    discriminate.
Qed.

(** C5.  Whatever makes the download fail, [load_metrics] returns the empty
    list; so it does when the bucket holds no object under the metrics key,
    when there is no bucket, and when the store cannot be reached. *)
Theorem load_metrics_download_failure (w : S3) (self : AnalyticsService) :
  (∀ e, download_text w (storage self) (metrics_key self) = Raise e →
        load_metrics w self = Ok [])
  ∧ ((∀ objs, buckets w !! bucket (storage self) = Some objs →
              objs !! metrics_key self = None) →
     load_metrics w self = Ok [])
  ∧ (reachable w = false → load_metrics w self = Ok []).
Proof.
  assert (∀ e, download_text w (storage self) (metrics_key self) = Raise e →
               load_metrics w self = Ok []) as Hfail.
  { intros e He. unfold load_metrics. by rewrite He. }
  split_and!; [done| |].
  - intros Habs. unfold load_metrics, download_text, get_object.
    destruct (reachable w); [|done]. cbn.
    destruct (buckets w !! bucket (storage self)) as [objs|] eqn:Hb; [|done].
    by rewrite (Habs objs eq_refl).
  - intros Hr. unfold load_metrics, download_text, get_object. by rewrite Hr.
Qed.

Lemma load_metrics_download_failure_witness :
  download_text empty_store (storage default_service) (metrics_key default_service)
    = Raise NoSuchKey
  ∧ load_metrics empty_store default_service = Ok [].
Proof.
  assert (download_text empty_store (storage default_service)
            (metrics_key default_service) = Raise NoSuchKey) as Hd
    by (vm_compute; reflexivity).
  split; [exact Hd|].
  exact (proj1 (load_metrics_download_failure empty_store default_service)
               NoSuchKey Hd).
Defined.

(** ** The dict of event types *)

Lemma types_find_put_eq d k key n :
  hash_key key = Some k → types_find (types_put d k key n) k = Some n.
Proof.
  intros Hk. induction d as [|[k' n'] d IH]; cbn.
  - by rewrite decide_True.
  - destruct (decide (hash_key k' = Some k)) as [Hd|Hd]; cbn.
    + by rewrite decide_True.
    + by rewrite decide_False.
Qed.

Lemma types_find_put_ne d k key n k' :
  hash_key key = Some k → k' ≠ k →
  types_find (types_put d k key n) k' = types_find d k'.
Proof.
  intros Hk Hne. induction d as [|[k1 n1] d IH]; cbn.
  - rewrite decide_False; [done|congruence].
  - destruct (decide (hash_key k1 = Some k)) as [Hd|Hd]; cbn.
    + rewrite !decide_False; [done|congruence..].
    + destruct (decide (hash_key k1 = Some k')); [done|apply IH].
Qed.

Lemma types_put_sum d k key n :
  sum_list (snd <$> types_put d k key n)
  = sum_list (snd <$> d) - default 0 (types_find d k) + n.
Proof.
  unfold sum_list. induction d as [|[k' n'] d IH]; cbn; [lia|].
  destruct (decide (hash_key k' = Some k)); cbn; [lia|]. rewrite IH. lia.
Qed.

Lemma types_put_keys d k key n :
  fst <$> types_put d k key n
  = match types_find d k with
    | Some _ => fst <$> d
    | None => (fst <$> d) ++ [key]
    end.
Proof.
  induction d as [|[k' n'] d IH]; cbn; [done|].
  destruct (decide (hash_key k' = Some k)); cbn; [done|].
  rewrite IH. by destruct (types_find d k).
Qed.

Lemma types_find_None d k :
  types_find d k = None ↔ ∀ key, key ∈ d.*1 → hash_key key ≠ Some k.
Proof.
  induction d as [|[k' n'] d IH]; cbn.
  - split; [|done]. intros _ key Hin. by apply elem_of_nil in Hin.
  - case_decide as Hd.
    + split; [done|]. intros H. exfalso. apply (H k'); [left|done].
    + rewrite IH. split.
      * intros H key Hin. apply elem_of_cons in Hin as [->|Hin]; auto.
      * intros H key Hin. apply H. by right.
Qed.

Lemma types_get_str d t :
  types_get d (VStr t) 0 = Ok (default 0 (types_find d (KStr t))).
Proof. reflexivity. Qed.

(** ** The summary loop *)

Section SummaryProperties.
Variable int_of_str : str → option Z.
Variable fromisoformat : str → option date.


(** Whatever the rows are, a turn of the loop that does not raise adds
    the same count to the total and to the values of the dict. *)
Lemma summary_row_balance st row st' :
  summary_row int_of_str fromisoformat st row = Ok st' →
  st_total st' - sum_list (snd <$> st_types st')
  = st_total st - sum_list (snd <$> st_types st).
Proof.
  unfold summary_row, types_get, types_set. intros H.
  destruct (int_field int_of_str row "event_count") as [count|]; [|done].
  destruct (int_field int_of_str row "unique_users") as [unique|]; [|done].
  destruct (type_field row) as [et|]; [|done]. cbn in H.
  destruct (hash_key et) as [k|]; [|done]. cbn in H.
  destruct (date_field fromisoformat row) as [d|]; [|done]. cbn in H.
  injection H as <-. cbn. rewrite types_put_sum. lia.
Qed.

Lemma summary_loop_balance rows st st' :
  summary_loop int_of_str fromisoformat rows st = Ok st' →
  st_total st' - sum_list (snd <$> st_types st')
  = st_total st - sum_list (snd <$> st_types st).
Proof.
  revert st. induction rows as [|row rows IH]; intros st H; cbn in H.
  - by injection H as <-.
  - destruct (summary_row int_of_str fromisoformat st row) as [st1|] eqn:E; [|done]. cbn in H.
    rewrite (IH _ H). by eapply summary_row_balance.
Qed.

Lemma summarize_total_is_sum rows s :
  summarize int_of_str fromisoformat rows = Ok s → total_events s = sum_list (snd <$> event_types s).
Proof.
  unfold summarize. intros H.
  destruct (summary_loop int_of_str fromisoformat rows _) as [st|] eqn:E; [|done].
  cbn in H. injection H as <-. cbn.
  apply summary_loop_balance in E. unfold sum_list in *. cbn in E. lia.
Qed.

(** On a metric row the body of the loop does not raise, and reads the
    row as the four accessors do. *)
Lemma summary_row_daily st row :
  is_daily_metric row = true →
  summary_row int_of_str fromisoformat st row
  = Ok {| st_total := st_total st + event_count_of row;
          st_unique := st_unique st + unique_users_of row;
          st_types :=
            types_put (st_types st) (KStr (event_type_of row))
              (VStr (event_type_of row))
              (default 0 (types_find (st_types st) (KStr (event_type_of row)))
               + event_count_of row);
          st_dates := st_dates st
                        ++ option_list (event_date_of fromisoformat row) |}.
Proof.
  intros Hrow. destruct row as [| | | | |l|d]; try done.
  unfold is_daily_metric, summary_row, int_field, type_field, date_field,
    row_get, event_count_of, unique_users_of, event_type_of, event_date_of,
    member in *.
  destruct (dict_get d (pystr "event_count")) as [[]|]; try done;
  destruct (dict_get d (pystr "unique_users")) as [[]|]; try done;
  destruct (dict_get d (pystr "event_type")) as [[| | | |[|c1 s1]| |]|]; try done;
  destruct (dict_get d (pystr "event_date")) as [[| | | |[|c2 s2]| |]|]; try done;
  cbn; try destruct (fromisoformat (c2 :: s2)); cbn;
  by rewrite ?app_nil_r.
Qed.

Lemma hash_key_KStr key t : hash_key key = Some (KStr t) → key = VStr t.
Proof.
  destruct key as [|[]|z|[|neg|neg m e]|s|l|d]; cbn; try done.
  - unfold num_key. destruct (Z.abs_N z); [done|]. by destruct (odd_part _).
  - unfold num_key. destruct m; [done|]. by destruct (odd_part _).
  - by intros [= ->].
Qed.

Lemma types_find_Some_elem d k n :
  types_find d k = Some n → ∃ key, key ∈ d.*1 ∧ hash_key key = Some k.
Proof.
  induction d as [|[k' n'] d IH]; cbn; [done|].
  destruct (decide (hash_key k' = Some k)) as [Hd|Hd].
  - intros _. exists k'. split; [left|done].
  - intros H. destruct (IH H) as (key & Hin & Hk). exists key. split; [by right|done].
Qed.

Lemma types_put_str_keys d t n key :
  key ∈ (types_put d (KStr t) (VStr t) n).*1 ↔ key ∈ d.*1 ∨ key = VStr t.
Proof.
  rewrite types_put_keys. destruct (types_find d (KStr t)) as [n0|] eqn:E.
  - split; [by left|]. intros [H| ->]; [done|].
    apply types_find_Some_elem in E as (key & Hin & Hk).
    by rewrite <- (hash_key_KStr _ _ Hk).
  - rewrite elem_of_app, list_elem_of_singleton. done.
Qed.

Lemma types_put_str_NoDup d t n :
  NoDup d.*1 → NoDup (types_put d (KStr t) (VStr t) n).*1.
Proof.
  intros Hnd. rewrite types_put_keys.
  destruct (types_find d (KStr t)) as [n0|] eqn:E; [done|].
  apply NoDup_app. split_and!; [done| |apply NoDup_singleton].
  intros key Hin ->%list_elem_of_singleton.
  by apply (proj1 (types_find_None _ _) E (VStr t) Hin).
Qed.

(** On metric rows the loop runs to its end, and its variables are these. *)
Lemma summary_loop_daily rows st :
  Forall (fun r => is_daily_metric r = true) rows →
  ∃ st',
    summary_loop int_of_str fromisoformat rows st = Ok st'
    ∧ st_total st' = st_total st + sum_list (event_count_of <$> rows)
    ∧ st_unique st' = st_unique st + sum_list (unique_users_of <$> rows)
    ∧ st_dates st' = st_dates st ++ omap (event_date_of fromisoformat) rows
    ∧ (∀ t, default 0 (types_find (st_types st') (KStr t))
            = default 0 (types_find (st_types st) (KStr t)) + count_of_type t rows)
    ∧ (∀ key, key ∈ (st_types st').*1
              ↔ key ∈ (st_types st).*1 ∨ ∃ r, r ∈ rows ∧ key = VStr (event_type_of r))
    ∧ (NoDup (st_types st).*1 → NoDup (st_types st').*1).
Proof.
  intros Hrows. revert st.
  induction Hrows as [|row rows Hrow _ IH]; intros st.
  - exists st. unfold count_of_type, sum_list. cbn. split_and!; try done.
    + lia.
    + lia.
    + by rewrite app_nil_r.
    + intros t. lia.
    + intros key. split; [by left|]. intros [H|(r & Hr & _)]; [done|].
      by apply elem_of_nil in Hr.
  - cbn [summary_loop].
    rewrite (summary_row_daily st row Hrow), result_bind_Ok.
    destruct (IH {| st_total := st_total st + event_count_of row;
            st_unique := st_unique st + unique_users_of row;
            st_types :=
              types_put (st_types st) (KStr (event_type_of row))
                (VStr (event_type_of row))
                (default 0 (types_find (st_types st) (KStr (event_type_of row)))
                 + event_count_of row);
            st_dates := st_dates st
                          ++ option_list (event_date_of fromisoformat row) |})
      as (st' & Hloop & Htot & Huniq & Hdates & Htypes & Hkeys & Hnd).
    cbn in Htot, Huniq, Hdates, Htypes, Hkeys, Hnd.
    exists st'. split_and!; [done| | | | | |].
    + rewrite Htot. unfold sum_list. cbn. lia.
    + rewrite Huniq. unfold sum_list. cbn. lia.
    + rewrite Hdates, <- app_assoc. f_equal. cbn.
      by destruct (event_date_of fromisoformat row).
    + intros t. rewrite Htypes. unfold count_of_type. rewrite filter_cons.
      destruct (decide (event_type_of row = t)) as [<-|Hne].
      * rewrite types_find_put_eq by done. unfold sum_list. cbn. lia.
      * rewrite types_find_put_ne by (done || congruence). lia.
    + intros key. rewrite Hkeys, types_put_str_keys. split.
      * intros [[H| ->]|(r & Hr & ->)]; [by left| |].
        -- right. exists row. split; [left|done].
        -- right. exists r. split; [by right|done].
      * intros [H|(r & Hr & ->)]; [by left; left|].
        apply elem_of_cons in Hr as [->|Hr]; [left; by right|].
        right. by exists r.
    + intros H. by apply Hnd, types_put_str_NoDup.
Qed.

End SummaryProperties.

(** ** Dates *)

Lemma date_lt_spec a b :
  date_lt a b = true
  ↔ (year a < year b
     ∨ year a = year b ∧ (month a < month b ∨ month a = month b ∧ day a < day b))%N.
Proof.
  unfold date_lt.
  rewrite !orb_true_iff, !andb_true_iff, !orb_true_iff, !andb_true_iff,
    !N.ltb_lt, !N.eqb_eq.
  done.
Qed.

Lemma date_le_spec a b :
  date_le a b
  ↔ (year a < year b
     ∨ year a = year b ∧ (month a < month b ∨ month a = month b ∧ day a <= day b))%N.
Proof.
  unfold date_le. rewrite <- not_true_iff_false, date_lt_spec. lia.
Qed.

Lemma date_le_refl a : date_le a a.
Proof. apply date_le_spec. lia. Qed.

Lemma date_le_trans a b c : date_le a b → date_le b c → date_le a c.
Proof. rewrite !date_le_spec. lia. Qed.

Lemma date_le_antisym a b : date_le a b → date_le b a → a = b.
Proof.
  rewrite !date_le_spec. destruct a, b; cbn. intros H1 H2.
  f_equal; lia.
Qed.

Lemma date_lt_le a b : date_lt a b = true → date_le a b.
Proof. rewrite date_lt_spec, date_le_spec. lia. Qed.

Lemma date_min_spec d ds :
  date_min d ds ∈ d :: ds ∧ ∀ x, x ∈ d :: ds → date_le (date_min d ds) x.
Proof.
  unfold date_min. revert d. induction ds as [|y ds IH]; intros d; cbn.
  - split; [left|]. intros x ->%list_elem_of_singleton. apply date_le_refl.
  - destruct (date_lt y d) eqn:E.
    + destruct (IH y) as [Hin Hle]. split.
      * right. done.
      * intros x [->|Hx]%elem_of_cons; [|by apply Hle].
        apply date_le_trans with y; [apply Hle; left|by apply date_lt_le].
    + destruct (IH d) as [Hin Hle]. split.
      * apply elem_of_cons in Hin as [->|Hin]; [left|right; by right].
      * intros x [->|[->|Hx]%elem_of_cons]%elem_of_cons.
        -- apply Hle. left.
        -- apply date_le_trans with d; [apply Hle; left|exact E].
        -- apply Hle. by right.
Qed.

Lemma date_max_spec d ds :
  date_max d ds ∈ d :: ds ∧ ∀ x, x ∈ d :: ds → date_le x (date_max d ds).
Proof.
  unfold date_max. revert d. induction ds as [|y ds IH]; intros d; cbn.
  - split; [left|]. intros x ->%list_elem_of_singleton. apply date_le_refl.
  - destruct (date_lt d y) eqn:E.
    + destruct (IH y) as [Hin Hle]. split.
      * right. done.
      * intros x [->|Hx]%elem_of_cons; [|by apply Hle].
        apply date_le_trans with y; [by apply date_lt_le|apply Hle; left].
    + destruct (IH d) as [Hin Hle]. split.
      * apply elem_of_cons in Hin as [->|Hin]; [left|right; by right].
      * intros x [->|[->|Hx]%elem_of_cons]%elem_of_cons.
        -- apply Hle. left.
        -- apply date_le_trans with d; [exact E|apply Hle; left].
        -- apply Hle. by right.
Qed.


(** ** The summary *)

Section SummaryTheorems.
Variable int_of_str : str → option Z.
Variable fromisoformat : str → option date.

(** What [summarize] returns on metric rows. *)
Lemma summarize_daily rows :
  metric_rows rows →
  ∃ s,
    summarize int_of_str fromisoformat rows = Ok s
    ∧ total_events s = sum_list (event_count_of <$> rows)
    ∧ daily_unique_users_sum s = sum_list (unique_users_of <$> rows)
    ∧ (∀ t, types_get (event_types s) (VStr t) 0 = Ok (count_of_type t rows))
    ∧ (∀ key, key ∈ (event_types s).*1
              ↔ ∃ r, r ∈ rows ∧ key = VStr (event_type_of r))
    ∧ NoDup (event_types s).*1
    ∧ dates s
      = match omap (event_date_of fromisoformat) rows with
        | [] => None
        | d :: ds => Some {| start := isoformat (date_min d ds);
                             end_ := isoformat (date_max d ds) |}
        end.
Proof.
  intros Hrows.
  destruct (summary_loop_daily int_of_str fromisoformat rows
              {| st_total := 0; st_unique := 0; st_types := []; st_dates := [] |}
              Hrows)
    as (st & Hloop & Htot & Huniq & Hdates & Htypes & Hkeys & Hnd).
  cbn in Htot, Huniq, Hdates, Htypes, Hkeys, Hnd.
  unfold summarize. rewrite Hloop, result_bind_Ok. eexists. split; [done|].
  cbn [total_events event_types dates daily_unique_users_sum]. split_and!.
  - lia.
  - lia.
  - intros t. rewrite types_get_str, Htypes. f_equal.
  - intros key. rewrite Hkeys. split; [|by right].
    intros [H|H]; [by apply elem_of_nil in H|done].
  - apply Hnd. constructor.
  - by rewrite Hdates.
Qed.

(** C2.  On the metric rows it has loaded, [summary] returns a summary
    whose [total_events] is the sum of the values of [event_types] and the
    sum of the counts of the rows.  [event_types] has one key for each event
    type among the rows, [unknown] standing for a type that is absent, null
    or empty, and the value of a key is the sum of the counts of the rows of
    that type: the count of a row goes to the total and to the one bucket of
    its type.  The first equation holds of every summary [summarize]
    returns, whatever the rows are. *)
Theorem summary_total_is_sum_of_event_types (w : S3) (self : AnalyticsService)
    (rows : list value) :
  load_metrics w self = Ok rows →
  (∀ s, summary int_of_str fromisoformat w self = Ok s →
        total_events s = sum_list (snd <$> event_types s))
  ∧ (metric_rows rows →
     ∃ s,
       summary int_of_str fromisoformat w self = Ok s
       ∧ total_events s = sum_list (snd <$> event_types s)
       ∧ total_events s = sum_list (event_count_of <$> rows)
       ∧ (∀ t, types_get (event_types s) (VStr t) 0 = Ok (count_of_type t rows))
       ∧ (∀ key, key ∈ (event_types s).*1
                 ↔ ∃ r, r ∈ rows ∧ key = VStr (event_type_of r))
       ∧ NoDup (event_types s).*1).
Proof.
  intros Hload. unfold summary. rewrite Hload, result_bind_Ok. split.
  - apply summarize_total_is_sum.
  - intros Hrows.
    destruct (summarize_daily rows Hrows)
      as (s & Hs & Htot & _ & Htypes & Hkeys & Hnd & _).
    exists s. split_and!; try done.
    by eapply summarize_total_is_sum.
Qed.

(** C4.  On the metric rows it has loaded, [summary] returns a summary.
    Its [date_range] is absent exactly when no row has a date that parses;
    otherwise [start] and [end] are the ISO form of the least and of the
    greatest of the dates that parse.  The totals run over all the rows,
    those whose date does not parse included. *)
Theorem summary_date_range (w : S3) (self : AnalyticsService) (rows : list value) :
  load_metrics w self = Ok rows →
  metric_rows rows →
  ∃ s,
    summary int_of_str fromisoformat w self = Ok s
    ∧ (dates s = None ↔ omap (event_date_of fromisoformat) rows = [])
    ∧ (omap (event_date_of fromisoformat) rows ≠ [] →
       ∃ lo hi,
         lo ∈ omap (event_date_of fromisoformat) rows
         ∧ hi ∈ omap (event_date_of fromisoformat) rows
         ∧ (∀ d, d ∈ omap (event_date_of fromisoformat) rows →
                 date_le lo d ∧ date_le d hi)
         ∧ dates s = Some {| start := isoformat lo; end_ := isoformat hi |})
    ∧ total_events s = sum_list (event_count_of <$> rows)
    ∧ daily_unique_users_sum s = sum_list (unique_users_of <$> rows)
    ∧ (∀ t, types_get (event_types s) (VStr t) 0 = Ok (count_of_type t rows)).
Proof.
  intros Hload Hrows. unfold summary. rewrite Hload, result_bind_Ok.
  destruct (summarize_daily rows Hrows)
    as (s & Hs & Htot & Huniq & Htypes & _ & _ & Hdates).
  exists s. split_and!; try done.
  - rewrite Hdates. by destruct (omap _ rows).
  - intros Hne. rewrite Hdates.
    destruct (omap (event_date_of fromisoformat) rows) as [|d ds]; [done|].
    destruct (date_min_spec d ds) as [Hmin Hle].
    destruct (date_max_spec d ds) as [Hmax Hge].
    exists (date_min d ds), (date_max d ds). split_and!; try done.
    intros x Hx. split; [by apply Hle|by apply Hge].
Qed.

End SummaryTheorems.

(** The metrics of the API test: seven events, five of them page views, all
    on one day. *)
Lemma metrics_ok_rows_daily : metric_rows metrics_ok_rows.
Proof.
  unfold metric_rows, metrics_ok_rows.
  repeat (constructor; [vm_compute; reflexivity|]). constructor.
Qed.

Lemma metrics_ok_loaded :
  load_metrics (store_with_metrics metrics_ok) default_service = Ok metrics_ok_rows.
Proof. vm_compute. reflexivity. Qed.

Lemma summary_total_is_sum_of_event_types_witness :
  ∃ s,
    summary IntOfStr.parse IsoDate.parse (store_with_metrics metrics_ok)
      default_service = Ok s
    ∧ total_events s = sum_list (snd <$> event_types s)
    ∧ total_events s = 7
    ∧ types_get (event_types s) (VStr (pystr "page_view")) 0 = Ok 5.
Proof.
  destruct (proj2 (summary_total_is_sum_of_event_types IntOfStr.parse IsoDate.parse
                     (store_with_metrics metrics_ok) default_service
                     metrics_ok_rows metrics_ok_loaded) metrics_ok_rows_daily)
    as (s & Hs & Hsum & Htot & Htypes & _).
  exists s. split_and!; [done|done| |].
  - rewrite Htot. vm_compute. reflexivity.
  - rewrite Htypes. vm_compute. reflexivity.
Defined.

Lemma summary_date_range_witness :
  ∃ s,
    summary IntOfStr.parse IsoDate.parse (store_with_metrics metrics_ok)
      default_service = Ok s
    ∧ dates s ≠ None
    ∧ daily_unique_users_sum s = 5.
Proof.
  destruct (summary_date_range IntOfStr.parse IsoDate.parse
              (store_with_metrics metrics_ok) default_service
              metrics_ok_rows metrics_ok_loaded metrics_ok_rows_daily)
    as (s & Hs & Hnone & _ & _ & Huniq & _).
  exists s. split_and!; [done| |].
  - intros H. apply Hnone in H. revert H. vm_compute. discriminate.
  - rewrite Huniq. vm_compute. reflexivity.
Defined.

(** ** Sorting *)

Section SortedProperties.
Context {A : Type} (before : A → A → bool).

Lemma insert_sorted_Permutation x l : insert_sorted before x l ≡ₚ x :: l.
Proof.
  induction l as [|y l IH]; cbn; [done|].
  destruct (before y x); [|done]. rewrite IH. apply Permutation_swap.
Qed.

Lemma py_sorted_cons x l :
  py_sorted before (x :: l) = insert_sorted before x (py_sorted before l).
Proof. reflexivity. Qed.

Lemma py_sorted_Permutation l : py_sorted before l ≡ₚ l.
Proof.
  induction l as [|x l IH]; cbn; [done|].
  by rewrite insert_sorted_Permutation, IH.
Qed.

Lemma elem_of_insert_sorted y x l :
  y ∈ insert_sorted before x l ↔ y = x ∨ y ∈ l.
Proof. by rewrite insert_sorted_Permutation, elem_of_cons. Qed.

Hypothesis before_asym : ∀ a b, before a b = true → before b a = false.

Lemma insert_sorted_Sorted x l :
  Sorted (not_after before) l → Sorted (not_after before) (insert_sorted before x l).
Proof.
  induction 1 as [|y l Hl IH Hhd]; cbn; [by repeat constructor|].
  destruct (before y x) eqn:E.
  - constructor; [done|].
    destruct Hhd as [|z l Hz]; cbn.
    + constructor. by apply before_asym.
    + destruct (before z x); constructor; [done|]. by apply before_asym.
  - constructor; [by constructor|]. by constructor.
Qed.

Lemma py_sorted_Sorted l : Sorted (not_after before) (py_sorted before l).
Proof.
  induction l as [|x l IH]; cbn; [constructor|]. by apply insert_sorted_Sorted.
Qed.

End SortedProperties.

(** ** The order of str *)

Lemma str_lt_cons x a y b :
  str_lt (x :: a) (y :: b) = true ↔ (x < y)%N ∨ x = y ∧ str_lt a b = true.
Proof.
  cbn. rewrite orb_true_iff, andb_true_iff, N.ltb_lt, N.eqb_eq. done.
Qed.

Lemma str_lt_irrefl a : str_lt a a = false.
Proof.
  induction a as [|x a IH]; [done|].
  apply not_true_iff_false. rewrite str_lt_cons. intros [?|[_ ?]]; [lia|congruence].
Qed.

Lemma str_lt_trans a b c :
  str_lt a b = true → str_lt b c = true → str_lt a c = true.
Proof.
  revert b c. induction a as [|x a IH]; intros [|y b] [|z c]; try done.
  rewrite !str_lt_cons. intros [?|[-> ?]] [?|[-> ?]]; [left; lia..|].
  right. split; [done|]. by eapply IH.
Qed.

Lemma str_lt_asym a b : str_lt a b = true → str_lt b a = false.
Proof.
  intros H. apply not_true_iff_false. intros H'.
  pose proof (str_lt_trans _ _ _ H H') as Haa. by rewrite str_lt_irrefl in Haa.
Qed.

Lemma str_lt_trichotomy a b : str_lt a b = true ∨ a = b ∨ str_lt b a = true.
Proof.
  revert b. induction a as [|x a IH]; intros [|y b]; [by right; left|by left|by right; right|].
  rewrite !str_lt_cons.
  destruct (N.lt_trichotomy x y) as [?|[->|?]]; [by left; left| |by right; right; left].
  destruct (IH b) as [?|[->|?]]; [left; by right|right; by left|right; right; by right].
Qed.

Lemma str_le_trans a b c : str_le a b → str_le b c → str_le a c.
Proof.
  unfold str_le. intros Hab Hbc. apply not_true_iff_false. intros Hca.
  destruct (str_lt_trichotomy a b) as [H|[->|H]]; [|congruence..].
  pose proof (str_lt_trans _ _ _ Hca H). congruence.
Qed.

Lemma str_le_antisym a b : str_le a b → str_le b a → a = b.
Proof.
  unfold str_le. intros Hab Hba.
  destruct (str_lt_trichotomy a b) as [H|[->|H]]; [congruence|done|congruence].
Qed.

(** ** The ranking *)

Lemma elem_of_enumerate {A} (l : list A) (p : nat * A) :
  p ∈ enumerate l ↔ l !! p.1 = Some p.2.
Proof.
  unfold enumerate. rewrite elem_of_lookup_imap. split.
  - by intros (i & x & -> & Hx).
  - intros H. exists p.1, p.2. by destruct p.
Qed.

Lemma insert_ranked_sorted (x : nat * Qc) (l : list (nat * Qc)) :
  StronglySorted ranked_before l →
  (∀ p, p ∈ l → (x.1 < p.1)%nat) →
  StronglySorted ranked_before
    (insert_sorted (fun a b => bool_decide (b.2 < a.2)%Qc) x l).
Proof.
  induction 1 as [|y l Hl IH Hy]; intros Hidx; cbn.
  - repeat constructor.
  - assert (x.1 < y.1)%nat as Hxy by (apply Hidx; left).
    case_bool_decide as Hlt.
    + constructor.
      * apply IH. intros p Hp. apply Hidx. by right.
      * apply Forall_forall. intros p [->|Hp]%elem_of_insert_sorted.
        -- by left.
        -- by apply (proj1 (Forall_forall _ _) Hy).
    + apply Qcnot_lt_le in Hlt. constructor; [by constructor|].
      assert (ranked_before x y) as Hbxy.
      { destruct (Qcle_lt_or_eq _ _ Hlt) as [?|?]; [by left|by right]. }
      constructor; [done|].
      apply Forall_forall. intros p Hp.
      assert (x.1 < p.1)%nat as Hxp by (apply Hidx; by right).
      destruct (proj1 (Forall_forall _ _) Hy p Hp) as [Hps|[Hps _]].
      * left. by eapply Qclt_le_trans.
      * rewrite Hps in Hlt.
        destruct (Qcle_lt_or_eq _ _ Hlt) as [?|?]; [by left|by right].
Qed.

Lemma imap_enumerate_sorted (f : nat → nat) (scores : list Qc) :
  (∀ i j, (i < j)%nat → (f i < f j)%nat) →
  StronglySorted ranked_before
    (py_sorted (fun a b => bool_decide (b.2 < a.2)%Qc)
       (imap (fun i x => (f i, x)) scores)).
Proof.
  revert f. induction scores as [|s scores IH]; intros f Hf.
  - constructor.
  - rewrite imap_cons, py_sorted_cons. apply insert_ranked_sorted.
    + apply (IH (f ∘ S)). intros i j Hij. apply Hf. lia.
    + intros p Hp. rewrite py_sorted_Permutation in Hp.
      apply elem_of_lookup_imap in Hp as (i & x & -> & _). cbn. apply Hf. lia.
Qed.

(** The ranking holds the pairs of [enumerate(scores)], the greater score
    first, and equal scores in the order of the documents. *)
Lemma rank_sorted (scores : list Qc) : StronglySorted ranked_before (rank scores).
Proof. exact (imap_enumerate_sorted id scores (fun i j H => H)). Qed.

Lemma rank_Permutation (scores : list Qc) : rank scores ≡ₚ enumerate scores.
Proof. apply py_sorted_Permutation. Qed.

Lemma slice_to_sublist {A} (l : list A) (k : Z) : slice_to l k `sublist_of` l.
Proof. unfold slice_to. destruct (0 <=? k); apply sublist_take. Qed.

Lemma slice_to_length {A} (l : list A) (k : Z) :
  0 ≤ k → (Z.of_nat (length (slice_to l k)) ≤ k)%Z.
Proof.
  intros Hk. unfold slice_to. rewrite (proj2 (Z.leb_le 0 k) Hk), length_take. lia.
Qed.

Lemma slice_to_all {A} (l : list A) (k : Z) :
  (Z.of_nat (length l) ≤ k)%Z → slice_to l k = l.
Proof.
  intros Hk. unfold slice_to.
  rewrite (proj2 (Z.leb_le 0 k)) by lia. apply take_ge. lia.
Qed.

(** ** The document store *)

Lemma Forall2_StronglySorted {A B} (R1 : relation A) (R2 : relation B)
    (P : A → B → Prop) l1 l2 :
  (∀ a a' b b', P a a' → P b b' → R1 a b → R2 a' b') →
  Forall2 P l1 l2 → StronglySorted R1 l1 → StronglySorted R2 l2.
Proof.
  intros HR H. induction H as [|a a' l1 l2 Ha Hl IH]; intros Hs; [constructor|].
  apply StronglySorted_inv in Hs as [Hs Hall]. constructor; [by apply IH|].
  clear IH Hs. induction Hl as [|b b' l1 l2 Hb Hl IH]; [constructor|].
  apply Forall_cons in Hall as [Hab Hall]. constructor; [by eapply HR|by apply IH].
Qed.

Lemma StronglySorted_slice_to {A} (R : relation A) (l : list A) (k : Z) :
  StronglySorted R l → StronglySorted R (slice_to l k).
Proof.
  intros Hl. unfold slice_to.
  destruct (0 <=? k).
  - rewrite <- (take_drop (Z.to_nat k) l) in Hl. by apply StronglySorted_app_1_l in Hl.
  - rewrite <- (take_drop (length l - Z.to_nat (- k)) l) in Hl.
    by apply StronglySorted_app_1_l in Hl.
Qed.

Lemma NoDup_fmap_elem_inj {A B} (f : A → B) (l : list A) x y :
  NoDup (f <$> l) → x ∈ l → y ∈ l → f x = f y → x = y.
Proof.
  induction l as [|z l IH]; cbn; [by intros _ ?%elem_of_nil|].
  intros [Hz Hnd]%NoDup_cons [->|Hx]%elem_of_cons [->|Hy]%elem_of_cons Hf; [done| | |by apply IH].
  - exfalso. apply Hz. rewrite Hf. by apply list_elem_of_fmap_2.
  - exfalso. apply Hz. rewrite <- Hf. by apply list_elem_of_fmap_2.
Qed.

#[local] Instance name_le_trans : Transitive name_le.
Proof. intros a b c. apply str_le_trans. Qed.

Lemma sorted_paths_Sorted (l : list dir_entry) :
  Sorted name_le (py_sorted (fun a b => str_lt (entry_name a) (entry_name b)) l).
Proof.
  apply (py_sorted_Sorted (fun a b => str_lt (entry_name a) (entry_name b))).
  intros a b. apply str_lt_asym.
Qed.

(** The sorted paths do not depend on the order of enumeration. *)
Lemma sorted_paths_unique (l1 l2 : list dir_entry) :
  l1 ≡ₚ l2 → NoDup (entry_name <$> l1) →
  py_sorted (fun a b => str_lt (entry_name a) (entry_name b)) l1
  = py_sorted (fun a b => str_lt (entry_name a) (entry_name b)) l2.
Proof.
  intros Hp Hnd. apply (StronglySorted_unique_strong name_le).
  - intros x1 x2 Hx1 Hx2 H12 H21.
    rewrite py_sorted_Permutation in Hx1. rewrite py_sorted_Permutation, <- Hp in Hx2.
    apply (NoDup_fmap_elem_inj entry_name l1); [done..|]. by apply str_le_antisym.
  - apply Sorted_StronglySorted; [apply _|apply sorted_paths_Sorted].
  - apply Sorted_StronglySorted; [apply _|apply sorted_paths_Sorted].
  - by rewrite !py_sorted_Permutation.
Qed.

Lemma glob_md_Permutation (d1 d2 : list dir_entry) :
  d1 ≡ₚ d2 → glob_md d1 ≡ₚ glob_md d2.
Proof. intros H. unfold glob_md. by rewrite H. Qed.

Lemma glob_md_NoDup (d : list dir_entry) :
  NoDup (entry_name <$> d) → NoDup (entry_name <$> glob_md d).
Proof.
  unfold glob_md. induction d as [|e d IH]; [done|].
  rewrite fmap_cons. intros [He Hd]%NoDup_cons. rewrite filter_cons.
  destruct (decide (is_md (entry_name e) = true)); [|by apply IH].
  rewrite fmap_cons. apply NoDup_cons. split; [|by apply IH].
  intros Hin. apply He. apply list_elem_of_fmap in Hin as (e' & -> & Hin).
  apply list_elem_of_fmap_2. by apply list_elem_of_filter in Hin as [_ ?].
Qed.

Lemma read_documents_spec paths acc docs :
  read_documents paths acc = Ok docs
  ↔ ∃ ds, Forall2 (fun e d => document_of e = Ok d) paths ds ∧ docs = acc ++ ds.
Proof.
  revert acc. induction paths as [|e paths IH]; intros acc; cbn.
  - split.
    + intros [= <-]. exists []. by rewrite app_nil_r.
    + intros (ds & ->%Forall2_nil_inv_l & ->). by rewrite app_nil_r.
  - destruct (read_text e) as [text|err] eqn:E; cbn.
    + assert (document_of e = Ok (stem (entry_name e), strip text)) as He.
      { unfold document_of. by rewrite E. }
      rewrite IH. split.
      * intros (ds & Hds & ->). eexists (_ :: ds). split; [by constructor|].
        by rewrite <- app_assoc.
      * intros (ds & (d & ds' & Hd & Hds & ->)%Forall2_cons_inv_l & ->).
        rewrite He in Hd. injection Hd as <-. exists ds'. by rewrite <- app_assoc.
    + split; [done|].
      intros (ds & (d & ds' & Hd & _)%Forall2_cons_inv_l & _).
      unfold document_of in Hd. by rewrite E in Hd.
Qed.

Lemma documents_fst paths (docs : list (str * str)) :
  Forall2 (fun e d => document_of e = Ok d) paths docs →
  fst <$> docs = (stem ∘ entry_name) <$> paths.
Proof.
  induction 1 as [|e d paths docs He _ IH]; [done|]. cbn. rewrite IH. f_equal.
  unfold document_of in He. destruct (read_text e); [|done]. by injection He as <-.
Qed.

Section DocumentStoreProperties.
Context (Vectorizer Matrix : Type).
Context (fit_transform : list str → result (Vectorizer * Matrix)).
Context (similarities : Vectorizer → Matrix → str → list Qc).
Context (str_lower str_title : str → str).

#[local] Abbreviation Store := (DocumentStore Vectorizer Matrix).
#[local] Abbreviation load := (_load_documents Vectorizer Matrix fit_transform).
#[local] Abbreviation find :=
  (search Vectorizer Matrix similarities str_lower str_title).
#[local] Abbreviation built := (result_of str_lower str_title).
#[local] Abbreviation one_row_each :=
  (row_per_document Vectorizer Matrix fit_transform similarities).

(** What a store that has been built holds: the documents of the sorted
    paths and, unless there is none, the model fitted on their texts. *)
Lemma _load_documents_spec (dir : list dir_entry) (s : Store) :
  load dir = Ok s →
  Forall2 (fun e d => document_of e = Ok d)
    (py_sorted (fun a b => str_lt (entry_name a) (entry_name b)) (glob_md dir))
    (_documents _ _ s)
  ∧ match _documents _ _ s with
    | [] => _vectorizer _ _ s = None ∧ _matrix _ _ s = None
    | _ => ∃ v m, fit_transform (snd <$> _documents _ _ s) = Ok (v, m)
                  ∧ _vectorizer _ _ s = Some v ∧ _matrix _ _ s = Some m
    end.
Proof.
  unfold _load_documents.
  destruct (read_documents _ []) as [docs|] eqn:E; [|done].
  apply read_documents_spec in E as (ds & Hds & ->). rewrite app_nil_l.
  rewrite result_bind_Ok. destruct ds as [|d ds].
  - intros [= <-]. by cbn.
  - destruct (fit_transform _) as [[v m]|] eqn:Ef; [|done].
    intros [= <-]. cbn. split; [done|]. by exists v, m.
Qed.

Lemma collect_ok docs query ranked acc rs :
  Forall2 (fun p r => built docs query p = Some r) ranked rs →
  collect str_lower str_title docs query ranked acc = Ok (acc ++ rs).
Proof.
  intros H. revert acc. induction H as [|[idx sc] r ranked rs Hr _ IH]; intros acc; cbn.
  - by rewrite app_nil_r.
  - unfold result_of in Hr. cbn in Hr.
    destruct (docs !! idx) as [[id text]|]; [|done]. injection Hr as <-. cbn.
    rewrite IH. by rewrite <- app_assoc.
Qed.

Lemma result_of_spec docs query p r :
  built docs query p = Some r →
  score r = p.2 ∧ ∃ text, docs !! p.1 = Some (doc_id r, text).
Proof.
  unfold result_of. destruct (docs !! p.1) as [[id text]|]; [|done].
  intros [= <-]. cbn. eauto.
Qed.

Lemma result_of_total docs query (ranked : list (nat * Qc)) :
  (∀ p, p ∈ ranked → (p.1 < length docs)%nat) →
  ∃ rs, Forall2 (fun p r => built docs query p = Some r) ranked rs.
Proof.
  induction ranked as [|p ranked IH]; intros Hidx; [by exists []|].
  destruct IH as [rs Hrs]; [intros q Hq; apply Hidx; by right|].
  destruct (lookup_lt_is_Some_2 docs p.1) as [[id text] Hd]; [apply Hidx; left|].
  eexists (_ :: rs). constructor; [|done].
  unfold result_of. by rewrite Hd.
Qed.

(** [search] on a store with documents, when the library gives one score
    for each of them: the results are those of the head of the ranking. *)
Lemma search_spec (s : Store) v m query top_k :
  _documents _ _ s ≠ [] →
  _vectorizer _ _ s = Some v → _matrix _ _ s = Some m →
  length (similarities v m query) = length (_documents _ _ s) →
  ∃ results,
    find s query top_k = Ok results
    ∧ Forall2 (fun p r => built (_documents _ _ s) query p = Some r)
        (slice_to (rank (similarities v m query)) top_k) results.
Proof.
  intros Hne Hv Hm Hlen. unfold search. rewrite Hv, Hm.
  destruct (_documents _ _ s) as [|d docs] eqn:Hd; [done|].
  destruct (result_of_total (d :: docs) query
              (slice_to (rank (similarities v m query)) top_k)) as [rs Hrs].
  - intros p Hp. rewrite <- Hlen.
    apply (fun H => elem_of_sublist _ _ _ H (slice_to_sublist _ _)) in Hp.
    rewrite rank_Permutation in Hp. apply elem_of_enumerate in Hp.
    by apply lookup_lt_Some in Hp.
  - exists rs. split; [|done]. by rewrite (collect_ok _ _ _ [] rs Hrs).
Qed.

Lemma built_store_scores (dir : list dir_entry) (s : Store) :
  one_row_each → load dir = Ok s → _documents _ _ s ≠ [] →
  ∃ v m, _vectorizer _ _ s = Some v ∧ _matrix _ _ s = Some m
         ∧ ∀ query, length (similarities v m query) = length (_documents _ _ s).
Proof.
  intros Hrows Hload Hne. apply _load_documents_spec in Hload as [_ Hfit].
  destruct (_documents _ _ s) as [|d docs]; [done|].
  destruct Hfit as (v & m & Hfit & Hv & Hm). exists v, m. split_and!; [done..|].
  intros query. rewrite (Hrows _ _ _ query Hfit). by rewrite length_fmap.
Qed.

(** C8.  On an empty corpus, that is a directory with no [*.md] entry, the
    store is built and [search] returns the empty list, whatever the query
    and [top_k]; so does [search] on any store without documents. *)
Theorem search_empty_corpus (dir : list dir_entry) :
  (glob_md dir = [] →
   ∃ s, load dir = Ok s ∧ ∀ query top_k, find s query top_k = Ok [])
  ∧ (∀ (s : Store) query top_k, _documents _ _ s = [] → find s query top_k = Ok []).
Proof.
  split.
  - intros Hdir. unfold _load_documents. rewrite Hdir. cbn.
    eexists. split; [done|]. done.
  - intros s query top_k Hs. unfold search. by rewrite Hs.
Qed.

(** C7.  On a store built from a corpus with documents, [search] returns
    the results of the head of the ranking, which is [ranking[:top_k]]: at
    most [top_k] results, for every [top_k] that is a number of results,
    which is one that is not negative (the route passes 1 to 10).
    The ranking holds every document once with its similarity, the greater
    similarity first and, of two equal similarities, the document that is
    earlier in the corpus first.  The results are in descending order of
    score. *)
Theorem search_ranking (dir : list dir_entry) (s : Store) (query : str) (top_k : Z) :
  one_row_each → load dir = Ok s → _documents _ _ s ≠ [] →
  ∃ v m results,
    _vectorizer _ _ s = Some v ∧ _matrix _ _ s = Some m
    ∧ find s query top_k = Ok results
    ∧ (0 ≤ top_k → Z.of_nat (length results) ≤ top_k)
    ∧ rank (similarities v m query) ≡ₚ enumerate (similarities v m query)
    ∧ StronglySorted ranked_before (rank (similarities v m query))
    ∧ Forall2 (fun p r => score r = p.2
                          ∧ ∃ text, _documents _ _ s !! p.1 = Some (doc_id r, text))
        (slice_to (rank (similarities v m query)) top_k) results
    ∧ StronglySorted (fun a b => (score b ≤ score a)%Qc) results.
Proof.
  intros Hrows Hload Hne.
  destruct (built_store_scores dir s Hrows Hload Hne) as (v & m & Hv & Hm & Hlen).
  destruct (search_spec s v m query top_k Hne Hv Hm (Hlen query)) as (results & Hfind & Hres).
  exists v, m, results. split_and!; try done.
  - intros Hk. rewrite <- (Forall2_length _ _ _ Hres). by apply slice_to_length.
  - apply rank_Permutation.
  - apply rank_sorted.
  - eapply Forall2_impl; [exact Hres|]. intros p r. apply result_of_spec.
  - eapply (Forall2_StronglySorted ranked_before); [|exact Hres|].
    + intros p r p' r' [Hp _]%result_of_spec [Hp' _]%result_of_spec.
      rewrite Hp, Hp'. intros [Hlt|[-> _]]; [by apply Qclt_le_weak|apply Qcle_refl].
    + apply StronglySorted_slice_to, rank_sorted.
Qed.

Lemma results_doc_ids docs query (scores : list Qc) ranked results :
  Forall2 (fun p r => built docs query p = Some r) ranked results →
  ranked ≡ₚ enumerate scores →
  length scores = length docs →
  doc_id <$> results ≡ₚ fst <$> docs.
Proof.
  intros Hres Hperm Hlen.
  pose (h := fun p : nat * Qc => default [] (fst <$> docs !! p.1)).
  assert (doc_id <$> results = h <$> ranked) as ->.
  { clear Hperm Hlen. induction Hres as [|p r ranked results Hr _ IH]; [done|].
    rewrite !fmap_cons, IH by done. f_equal.
    apply result_of_spec in Hr as [_ [text Hd]]. unfold h. by rewrite Hd. }
  rewrite Hperm. clear Hperm Hres.
  assert (h <$> enumerate scores = fst <$> docs) as ->; [|done].
  apply list_eq. intros i. unfold enumerate.
  rewrite !list_lookup_fmap, list_lookup_imap.
  destruct (scores !! i) as [x|] eqn:Hx; cbn.
  - destruct (lookup_lt_is_Some_2 docs i) as [d Hd].
    { rewrite <- Hlen. by eapply lookup_lt_Some. }
    unfold h. cbn. by rewrite Hd.
  - rewrite (lookup_ge_None_2 docs i); [done|].
    rewrite <- Hlen. by apply lookup_ge_None.
Qed.

(** C6, as the code has it.  A store that has been built holds the entries
    of the directory whose name matches [*.md], and no other: the ids are
    the stems of these names, the texts what the files read, stripped.
    Each of these documents is listed, and [search] returns each of them
    when [top_k] is at least their number. *)
Theorem documents_are_md_files (dir : list dir_entry) (s : Store) :
  load dir = Ok s →
  (docs_list _ _ s ≡ₚ (stem ∘ entry_name) <$> glob_md dir)
  ∧ (∀ e, e ∈ dir → is_md (entry_name e) = true →
          ∃ text, read_text e = Ok text
                  ∧ (stem (entry_name e), strip text) ∈ _documents _ _ s)
  ∧ (∀ id text, (id, text) ∈ _documents _ _ s →
                ∃ e t, e ∈ dir ∧ is_md (entry_name e) = true
                       ∧ read_text e = Ok t
                       ∧ id = stem (entry_name e) ∧ text = strip t)
  ∧ (one_row_each →
     ∀ query top_k,
       Z.of_nat (length (_documents _ _ s)) ≤ top_k →
       ∃ results, find s query top_k = Ok results
                  ∧ doc_id <$> results ≡ₚ docs_list _ _ s).
Proof.
  intros Hload. pose proof (_load_documents_spec dir s Hload) as [Hdocs _].
  split_and!.
  - unfold docs_list. rewrite (documents_fst _ _ Hdocs).
    by rewrite py_sorted_Permutation.
  - intros e He Hmd.
    assert (e ∈ py_sorted (fun a b => str_lt (entry_name a) (entry_name b))
                  (glob_md dir)) as Hin.
    { rewrite py_sorted_Permutation. unfold glob_md. by apply list_elem_of_filter. }
    apply list_elem_of_lookup in Hin as [i Hi].
    destruct (Forall2_lookup_l _ _ _ _ _ Hdocs Hi) as (d & Hd & Hdoc).
    unfold document_of in Hdoc. destruct (read_text e) as [text|]; [|done].
    injection Hdoc as <-. exists text. split; [done|].
    apply list_elem_of_lookup. by exists i.
  - intros id text Hin. apply list_elem_of_lookup in Hin as [i Hi].
    destruct (Forall2_lookup_r _ _ _ _ _ Hdocs Hi) as (e & He & Hdoc).
    assert (e ∈ glob_md dir) as [Hmd Hdir]%list_elem_of_filter.
    { rewrite <- (py_sorted_Permutation
                    (fun a b => str_lt (entry_name a) (entry_name b))).
      apply list_elem_of_lookup. by exists i. }
    unfold document_of in Hdoc. destruct (read_text e) as [t|] eqn:Et; [|done].
    injection Hdoc as <- <-. by exists e, t.
  - intros Hrows query top_k Hk.
    destruct (decide (_documents _ _ s = [])) as [Hnil|Hne].
    + exists []. unfold search, docs_list. by rewrite Hnil.
    + destruct (built_store_scores dir s Hrows Hload Hne) as (v & m & Hv & Hm & Hlen).
      destruct (search_spec s v m query top_k Hne Hv Hm (Hlen query))
        as (results & Hfind & Hres).
      exists results. split; [done|].
      rewrite slice_to_all in Hres.
      * eapply results_doc_ids; [exact Hres|apply rank_Permutation|apply Hlen].
      * rewrite rank_Permutation. unfold enumerate. rewrite length_imap, Hlen. done.
Qed.

(** C10, as the code has it.  The documents of a store are in the order of
    their file names, the suffix [.md] included, whatever the order in
    which the file system enumerates the directory; [docs_list] gives the
    stems of the names in that order.  In a ranking, two documents of equal
    score are in that same order. *)
Theorem documents_in_file_name_order (dir : list dir_entry) (s : Store) :
  load dir = Ok s →
  ∃ paths,
    paths ≡ₚ glob_md dir
    ∧ Sorted name_le paths
    ∧ docs_list _ _ s = (stem ∘ entry_name) <$> paths
    ∧ (∀ dir', dir' ≡ₚ dir → NoDup (entry_name <$> dir) → load dir' = Ok s)
    ∧ (one_row_each →
       ∀ query top_k,
       ∃ ranked results,
         find s query top_k = Ok results
         ∧ StronglySorted ranked_before ranked
         ∧ Forall2 (fun p r => score r = p.2
                               ∧ ∃ e, paths !! p.1 = Some e
                                      ∧ doc_id r = stem (entry_name e))
             ranked results).
Proof.
  intros Hload. pose proof (_load_documents_spec dir s Hload) as [Hdocs _].
  exists (py_sorted (fun a b => str_lt (entry_name a) (entry_name b)) (glob_md dir)).
  split_and!.
  - apply py_sorted_Permutation.
  - apply sorted_paths_Sorted.
  - apply (documents_fst _ _ Hdocs).
  - intros dir' Hperm Hnd. rewrite <- Hload. unfold _load_documents.
    rewrite (sorted_paths_unique (glob_md dir') (glob_md dir)); [done| |].
    + by apply glob_md_Permutation.
    + apply glob_md_NoDup. by rewrite Hperm.
  - intros Hrows query top_k.
    destruct (decide (_documents _ _ s = [])) as [Hnil|Hne].
    + exists [], []. unfold search. rewrite Hnil. by repeat constructor.
    + destruct (built_store_scores dir s Hrows Hload Hne) as (v & m & Hv & Hm & Hlen).
      destruct (search_spec s v m query top_k Hne Hv Hm (Hlen query))
        as (results & Hfind & Hres).
      exists (slice_to (rank (similarities v m query)) top_k), results.
      split_and!; [done|apply StronglySorted_slice_to, rank_sorted|].
      eapply Forall2_impl; [exact Hres|]. intros p r Hr.
      apply result_of_spec in Hr as [Hsc [text Hd]]. split; [done|].
      destruct (Forall2_lookup_r _ _ _ _ _ Hdocs Hd) as (e & He & Hdoc).
      exists e. split; [done|]. unfold document_of in Hdoc.
      destruct (read_text e); [|done]. by injection Hdoc as <- _.
Qed.

End DocumentStoreProperties.

(** ** The document store on the corpus of the API test *)

Lemma toy_row_per_document :
  row_per_document unit (list str) toy_fit_transform toy_similarities.
Proof.
  intros texts v m query [= _ <-]. unfold toy_similarities. by rewrite length_fmap.
Qed.

Lemma toy_load_ops_support : toy_load docs_ops_support = Ok toy_store_ops_support.
Proof. vm_compute. reflexivity. Qed.

Lemma toy_load_with_txt : toy_load docs_with_txt = Ok toy_store_ops_support.
Proof. vm_compute. reflexivity. Qed.

Lemma toy_load_a_ab : toy_load docs_a_ab = Ok toy_store_a_ab.
Proof. vm_compute. reflexivity. Qed.

Lemma search_empty_corpus_witness :
  ∃ s, toy_load [text_file "notes.txt" "Latency notes."] = Ok s
       ∧ ∀ query top_k, toy_search s query top_k = Ok [].
Proof.
  apply (proj1 (search_empty_corpus unit (list str) toy_fit_transform
                  toy_similarities id id [text_file "notes.txt" "Latency notes."])).
  vm_compute. reflexivity.
Defined.

Lemma search_ranking_witness :
  ∃ results,
    toy_search toy_store_ops_support (pystr "latency") 1 = Ok results
    ∧ Z.of_nat (length results) ≤ 1
    ∧ StronglySorted (fun a b => (score b ≤ score a)%Qc) results.
Proof.
  destruct (search_ranking unit (list str) toy_fit_transform toy_similarities id id
              docs_ops_support toy_store_ops_support (pystr "latency") 1
              toy_row_per_document toy_load_ops_support)
    as (v & m & results & _ & _ & Hfind & Hlen & _ & _ & _ & Hsorted).
  - vm_compute. discriminate.
  - exists results. split_and!; [exact Hfind|apply Hlen; lia|exact Hsorted].
Defined.

Lemma documents_are_md_files_witness :
  (docs_list _ _ toy_store_ops_support
   ≡ₚ (stem ∘ entry_name) <$> glob_md docs_with_txt)
  ∧ ∃ results,
      toy_search toy_store_ops_support (pystr "latency") 2 = Ok results
      ∧ doc_id <$> results ≡ₚ docs_list _ _ toy_store_ops_support.
Proof.
  destruct (documents_are_md_files unit (list str) toy_fit_transform
              toy_similarities id id docs_with_txt toy_store_ops_support
              toy_load_with_txt) as (Hids & _ & _ & Hsearch).
  split; [exact Hids|].
  apply (Hsearch toy_row_per_document (pystr "latency") 2).
  vm_compute. discriminate.
Defined.

(** C6, as the claim states it, fails: [notes.txt] is a text file of the
    directory, and the store built from the directory has no document for
    it; the store is the one built without that file. *)
Lemma text_file_not_loaded_counterexample :
  let notes := text_file "notes.txt" "Latency notes." in
  notes ∈ docs_with_txt
  ∧ read_text notes = Ok (pystr "Latency notes.")
  ∧ stem (entry_name notes) = pystr "notes"
  ∧ toy_load docs_with_txt = Ok toy_store_ops_support
  ∧ toy_load docs_ops_support = Ok toy_store_ops_support
  ∧ docs_list _ _ toy_store_ops_support = [pystr "ops"; pystr "support"]
  ∧ (pystr "notes" ∉ docs_list _ _ toy_store_ops_support)
  ∧ ∃ results,
      toy_search toy_store_ops_support (pystr "Latency notes") 10 = Ok results
      ∧ doc_id <$> results = [pystr "ops"; pystr "support"].
Proof.
  cbv zeta. split_and!; try (vm_compute; reflexivity).
  - left.
  - apply (bool_decide_unpack _). vm_compute. exact I.
  - eexists. split; vm_compute; reflexivity.
Qed.

Lemma documents_in_file_name_order_witness :
  ∃ paths,
    paths ≡ₚ glob_md docs_ops_support
    ∧ Sorted name_le paths
    ∧ docs_list _ _ toy_store_ops_support = (stem ∘ entry_name) <$> paths
    ∧ toy_load (reverse docs_ops_support) = Ok toy_store_ops_support.
Proof.
  destruct (documents_in_file_name_order unit (list str) toy_fit_transform
              toy_similarities id id docs_ops_support toy_store_ops_support
              toy_load_ops_support) as (paths & Hperm & Hsorted & Hids & Hany & _).
  exists paths. split_and!; [done..|].
  apply Hany.
  - apply reverse_Permutation.
  - apply (bool_decide_unpack _). vm_compute. exact I.
Defined.

(** C10, as the claim states it, fails: of the files [a.md] and [a-b.md]
    the second comes first, the hyphen being less than the full stop, so
    the ids are listed as [a-b], [a], which is not their order. *)
Lemma doc_ids_not_sorted_counterexample :
  toy_load docs_a_ab = Ok toy_store_a_ab
  ∧ docs_list _ _ toy_store_a_ab = [pystr "a-b"; pystr "a"]
  ∧ str_lt (pystr "a") (pystr "a-b") = true
  ∧ ¬ Sorted str_le (docs_list _ _ toy_store_a_ab).
Proof.
  split_and!; try (vm_compute; reflexivity).
  intros H. assert (docs_list _ _ toy_store_a_ab = [pystr "a-b"; pystr "a"]) as Heq
    by (vm_compute; reflexivity).
  rewrite Heq in H. apply Sorted_inv in H as [_ H]. apply HdRel_inv in H.
  revert H. unfold str_le. vm_compute. discriminate.
Qed.

(** ** UTF-8: decoding what was encoded *)

Ltac lia_div := zify; Z.to_euclidean_division_equations; lia.

Lemma byte_of_to_N n : (n < 256)%N → Byte.to_N (Utf8Encode.byte_of n) = n.
Proof.
  intros Hn. unfold Utf8Encode.byte_of.
  destruct (Byte.of_N n) as [b|] eqn:E; cbn.
  - by apply Byte.to_of_N.
  - apply Byte.of_N_None_iff in E. lia.
Qed.

Ltac split_tests :=
  repeat match goal with
    | |- context [(?a <? ?b)%N] => destruct (N.ltb_spec a b); try lia_div
    | |- context [(?a <=? ?b)%N] => destruct (N.leb_spec a b); try lia_div
    end.

Lemma decode_encode_char c bs rest :
  Utf8Encode.encode_char c = Some bs →
  Utf8.decode (bs ++ rest) = cons c <$> Utf8.decode rest.
Proof.
  unfold Utf8Encode.encode_char.
  destruct (N.ltb_spec c 128); [|destruct (N.ltb_spec c 2048);
    [|destruct (N.ltb_spec c 65536); [|destruct (N.leb_spec c 1114111)]]].
  - intros [= <-]. cbn [app Utf8.decode]. rewrite byte_of_to_N by lia.
    by rewrite (proj2 (N.ltb_lt _ _)).
  - intros [= <-]. cbn [app Utf8.decode]. rewrite !byte_of_to_N by lia_div.
    unfold Utf8.is_cont. split_tests. cbn. do 2 f_equal. lia_div.
  - destruct (N.leb_spec 55296 c), (N.leb_spec c 57343); cbn; try done;
      intros [= <-]; cbn [app Utf8.decode]; rewrite !byte_of_to_N by lia_div;
      unfold Utf8.is_cont; split_tests; cbn; do 2 f_equal; lia_div.
  - intros [= <-]. cbn [app Utf8.decode]. rewrite !byte_of_to_N by lia_div.
    unfold Utf8.is_cont. split_tests. cbn. do 2 f_equal. lia_div.
  - done.
Qed.

(** What [encode] writes, [decode] reads back. *)
Lemma decode_encode s b : Utf8Encode.encode s = Some b → Utf8.decode b = Some s.
Proof.
  revert b. induction s as [|c s IH]; intros b; cbn.
  - by intros [= <-].
  - destruct (Utf8Encode.encode_char c) as [bs|] eqn:Ec; [|done]. cbn.
    destruct (Utf8Encode.encode s) as [r|]; [|done]. cbn. intros [= <-].
    rewrite (decode_encode_char _ _ _ Ec), (IH r eq_refl). done.
Qed.

(** ** Keys of the store *)

Lemma lstrip_char_head c s : head (lstrip_char c s) ≠ Some c.
Proof.
  induction s as [|x s IH]; cbn; [done|].
  destruct (decide (x = c)); [done|]. cbn. congruence.
Qed.

Lemma lstrip_char_app c s :
  lstrip_char c (s ++ [c])
  = match lstrip_char c s with [] => [] | l => l ++ [c] end.
Proof.
  induction s as [|x s IH]; cbn.
  - by rewrite decide_True.
  - destruct (decide (x = c)); [done|]. done.
Qed.

Lemma lstrip_char_suffix c s : lstrip_char c s `suffix_of` s.
Proof.
  induction s as [|x s IH]; cbn; [done|].
  destruct (decide (x = c)); [by apply suffix_cons_r|done].
Qed.

Lemma strip_slash_prefix s : strip_slash s `prefix_of` lstrip_char 47%N s.
Proof.
  unfold strip_slash. set (t := lstrip_char 47%N s).
  destruct (lstrip_char_suffix 47%N (reverse t)) as [k Hk].
  exists (reverse k).
  apply (f_equal reverse) in Hk.
  rewrite reverse_involutive, reverse_app in Hk. exact Hk.
Qed.

(** X1.  The prefix of a storage neither begins nor ends with a slash,
    and slashes around the configured prefix change nothing.  A key is the
    bare name when the prefix is empty (absent, or made of slashes), and
    otherwise the prefix, one slash and the name. *)
Theorem storage_key_normalised (b : str) (p : option str) (name : str) :
  let st := S3Storage_init b p in
  head (prefix st) ≠ Some 47%N
  ∧ last (prefix st) ≠ Some 47%N
  ∧ key st name = (if decide (prefix st = []) then name
                   else prefix st ++ 47%N :: name)
  ∧ (∀ q, p = Some q →
          S3Storage_init b (Some (47%N :: q)) = st
          ∧ S3Storage_init b (Some (q ++ [47%N])) = st)
  ∧ (Forall (fun c => c = 47%N) (default [] p) → key st name = name).
Proof.
  cbv zeta. unfold S3Storage_init, key. cbn [prefix bucket].
  set (q0 := default [] p). split_and!.
  - destruct (strip_slash_prefix q0) as [k Hk].
    pose proof (lstrip_char_head 47%N q0) as Hh. rewrite Hk in Hh.
    destruct (strip_slash q0); [done|]. exact Hh.
  - unfold strip_slash. rewrite last_reverse. apply lstrip_char_head.
  - destruct (strip_slash q0) eqn:E; [done|]. by rewrite decide_False.
  - intros q Hp. subst p q0. change (default [] (Some q)) with q.
    split; [reflexivity|]. f_equal. unfold strip_slash.
    change (default [] (Some (q ++ [47%N]))) with (q ++ [47%N]).
    rewrite lstrip_char_app.
    destruct (lstrip_char 47%N q) as [|x l] eqn:E; [done|].
    by rewrite reverse_app.
  - intros Hall. assert (lstrip_char 47%N q0 = []) as Hq.
    { induction Hall as [|x l -> _ IH]; cbn; [done|]. by rewrite decide_True. }
    unfold strip_slash. by rewrite Hq.
Qed.

Lemma storage_key_normalised_witness :
  key (S3Storage_init (pystr "b") (Some (pystr "//"))) (pystr "n") = pystr "n".
Proof.
  apply (storage_key_normalised (pystr "b") (Some (pystr "//")) (pystr "n")).
  repeat constructor.
Defined.

(** ** Writing to the store and reading back *)

Section StorageProperties.
Variable valid_bucket : str → bool.
Variable valid_key : str → bool.

Lemma ensure_bucket_ok (self : S3Storage) (w : S3) :
  valid_bucket (bucket self) = true → reachable w = true →
  ∃ w1, ensure_bucket valid_bucket self w = (w1, Ok ())
        ∧ reachable w1 = true
        ∧ is_Some (buckets w1 !! bucket self)
        ∧ ∀ b k, object_at w1 b k = object_at w b k.
Proof.
  intros Hb Hr. unfold ensure_bucket. rewrite Hb, Hr. cbn.
  destruct (buckets w !! bucket self) as [objs|] eqn:E.
  - exists w. by rewrite E.
  - eexists. split; [done|]. cbn. split_and!; [done| |].
    + by rewrite lookup_insert_eq.
    + intros b k. unfold object_at. cbn.
      destruct (decide (b = bucket self)) as [->|Hne].
      * by rewrite lookup_insert_eq, E.
      * by rewrite lookup_insert_ne.
Qed.

Lemma ensure_bucket_objects (self : S3Storage) (w w1 : S3) r :
  ensure_bucket valid_bucket self w = (w1, r) →
  reachable w1 = reachable w ∧ ∀ b k, object_at w1 b k = object_at w b k.
Proof.
  unfold ensure_bucket.
  destruct (valid_bucket (bucket self)); cbn; [|by intros [= <- _]].
  destruct (reachable w) eqn:Hr; cbn; [|by intros [= <- _]].
  destruct (buckets w !! bucket self) as [objs|] eqn:E; [by intros [= <- _]|].
  intros [= <- _]. cbn. split; [done|]. intros b k. unfold object_at. cbn.
  destruct (decide (b = bucket self)) as [->|Hne].
  - by rewrite lookup_insert_eq, E.
  - by rewrite lookup_insert_ne.
Qed.

Lemma put_object_objects b k body (w w1 : S3) r :
  put_object valid_bucket valid_key b k body w = (w1, r) →
  reachable w1 = reachable w
  ∧ (∀ b' k', (b', k') ≠ (b, k) → object_at w1 b' k' = object_at w b' k')
  ∧ match r with
    | Ok _ => object_at w1 b k = Some body
    | Raise _ => w1 = w
    end.
Proof.
  unfold put_object.
  destruct (valid_bucket b && valid_key k); cbn; [|by intros [= <- <-]].
  destruct (reachable w) eqn:Hr; cbn; [|by intros [= <- <-]].
  destruct (buckets w !! b) as [objs|] eqn:E; [|by intros [= <- <-]].
  intros [= <- <-]. cbn. split_and!; [done| |].
  - intros b' k' Hne. unfold object_at. cbn.
    destruct (decide (b' = b)) as [->|Hb].
    + rewrite lookup_insert_eq, E. cbn.
      rewrite lookup_insert_ne; [done|congruence].
    + by rewrite lookup_insert_ne.
  - unfold object_at. cbn. rewrite lookup_insert_eq. cbn.
    by rewrite lookup_insert_eq.
Qed.

Lemma download_text_object (w : S3) (self : S3Storage) k body text :
  reachable w = true → object_at w (bucket self) k = Some body →
  Utf8.decode body = Some text →
  download_text w self k = Ok text.
Proof.
  intros Hr Ho Hd. unfold download_text, get_object, object_at in *. rewrite Hr. cbn.
  destruct (buckets w !! bucket self) as [objs|]; [|done]. cbn in Ho.
  rewrite Ho. cbn. by rewrite Hd.
Qed.

(** X2.  A text that is uploaded is the text a download of the same key
    returns: on a store that can be reached, with a bucket name and a key
    the client accepts, [upload_text] of a text without surrogates returns,
    creating the bucket if there is none, and [download_text] then returns
    that text. *)
Theorem upload_text_download_text (self : S3Storage) (text k : str) (w : S3) :
  valid_bucket (bucket self) = true → valid_key k = true →
  reachable w = true →
  is_Some (Utf8Encode.encode text) →
  ∃ w', upload_text valid_bucket valid_key self text k w = (w', Ok ())
        ∧ download_text w' self k = Ok text.
Proof.
  intros Hb Hk Hr [body He]. unfold upload_text.
  destruct (ensure_bucket_ok self w Hb Hr) as (w1 & -> & Hr1 & [objs Hobjs] & _).
  rewrite He.
  destruct (put_object valid_bucket valid_key (bucket self) k body w1)
    as [w' r] eqn:Hput.
  pose proof (put_object_objects _ _ _ _ _ _ Hput) as (Hr' & _ & Hobj).
  unfold put_object in Hput. rewrite Hb, Hk, Hr1, Hobjs in Hput. cbn in Hput.
  injection Hput as <- <-. eexists. split; [done|].
  eapply download_text_object; [done|exact Hobj|by apply decode_encode].
Qed.

(** X3.  [upload_text] touches one object.  Whatever it returns or raises,
    every object under another key or in another bucket is as it was, and
    when it raises, so is the object under its own key. *)
Theorem upload_text_frame (self : S3Storage) (text k : str) (w w' : S3) r :
  upload_text valid_bucket valid_key self text k w = (w', r) →
  (∀ b' k', (b', k') ≠ (bucket self, k) → object_at w' b' k' = object_at w b' k')
  ∧ (∀ e, r = Raise e → ∀ b' k', object_at w' b' k' = object_at w b' k').
Proof.
  unfold upload_text.
  destruct (ensure_bucket valid_bucket self w) as [w1 r1] eqn:He.
  pose proof (ensure_bucket_objects _ _ _ _ He) as [_ H1].
  destruct r1 as [[]|e1].
  - destruct (Utf8Encode.encode text) as [body|].
    + intros Hput. pose proof (put_object_objects _ _ _ _ _ _ Hput) as (_ & Hfr & Hr).
      split.
      * intros b' k' Hne. by rewrite Hfr, H1.
      * intros e ->. subst w'. intros b' k'. apply H1.
    + intros [= <- <-]. split; intros; apply H1.
  - intros [= <- <-]. split; intros; apply H1.
Qed.

End StorageProperties.

Lemma upload_text_download_text_witness :
  ∃ w', upload_text (fun _ => true) (fun _ => true)
          (storage default_service) (pystr "{}") (metrics_key default_service)
          {| reachable := true; buckets := ∅ |} = (w', Ok ())
        ∧ download_text w' (storage default_service) (metrics_key default_service)
          = Ok (pystr "{}").
Proof.
  apply (upload_text_download_text (fun _ => true) (fun _ => true)
           (storage default_service) (pystr "{}") (metrics_key default_service)
           {| reachable := true; buckets := ∅ |}); try reflexivity.
  vm_compute. eexists. reflexivity.
Defined.

Lemma upload_text_frame_witness :
  object_at
    (upload_text (fun _ => true) (fun _ => true) (storage default_service)
       (pystr "x") (pystr "other") (store_with_metrics metrics_ok)).1
    (bucket (storage default_service)) (metrics_key default_service)
  = object_at (store_with_metrics metrics_ok)
      (bucket (storage default_service)) (metrics_key default_service).
Proof.
  apply (proj1 (upload_text_frame (fun _ => true) (fun _ => true)
                  (storage default_service) (pystr "x") (pystr "other")
                  (store_with_metrics metrics_ok) _ _ (surjective_pairing _))).
  vm_compute. discriminate.
Defined.

(** ** The aggregation job *)

Section JobProperties.
Context (valid_bucket valid_key : str → bool).
Context (Session DataFrame : Type).
Context (build_spark : result Session).
Context (spark_transform : Session → str → result DataFrame).
Context (mkdir : str → result unit).
Context (spark_write_json : DataFrame → str → result (list (str * list byte))).
Context (spark_stop : Session → result unit).

#[local] Abbreviation job :=
  (run_job valid_bucket valid_key Session DataFrame build_spark spark_transform
     mkdir spark_write_json spark_stop).
#[local] Abbreviation job_try :=
  (run_job_try valid_bucket valid_key Session DataFrame spark_transform mkdir
     spark_write_json).
#[local] Abbreviation steps :=
  (run_job_steps Session DataFrame spark_transform mkdir spark_write_json).
#[local] Abbreviation stage :=
  (run_job_stage Session DataFrame build_spark spark_transform mkdir
     spark_write_json).
#[local] Abbreviation metrics_object storage :=
  (bucket storage, key storage (pystr "metrics_by_day.jsonl")).

Lemma upload_file_objects (self : S3Storage) body k (w w' : S3) r :
  upload_file valid_bucket valid_key self body k w = (w', r) →
  (∀ b' k', (b', k') ≠ (bucket self, k) → object_at w' b' k' = object_at w b' k')
  ∧ match r with
    | Ok _ => reachable w' = true ∧ object_at w' (bucket self) k = Some body
    | Raise _ => ∀ b' k', object_at w' b' k' = object_at w b' k'
    end.
Proof.
  unfold upload_file.
  destruct (ensure_bucket valid_bucket self w) as [w1 r1] eqn:He.
  pose proof (ensure_bucket_objects _ _ _ _ _ He) as [Hr1 H1].
  destruct r1 as [[]|e1]; [|intros [= <- <-]; split; intros; apply H1].
  intros Hput. pose proof (put_object_objects _ _ _ _ _ _ _ _ Hput) as (Hr' & Hfr & Hr).
  split.
  - intros b' k' Hne. by rewrite Hfr, H1.
  - destruct r as [[]|e].
    + split; [|done]. unfold put_object in Hput.
      destruct (valid_bucket (bucket self) && valid_key k); [|done].
      destruct (reachable w1) eqn:E; [|done]. by rewrite Hr'.
    + subst w'. apply H1.
Qed.

(** The [try] block of [run_job]: what it leaves in the store. *)
Lemma run_job_try_objects spark (input_path output_dir : str)
    (storage : S3Storage) (w w' : S3) r :
  job_try spark input_path output_dir storage w = (w', r) →
  (∀ b k, (b, k) ≠ metrics_object storage → object_at w' b k = object_at w b k)
  ∧ match r with
    | Ok part_file =>
        ∃ body, steps spark input_path output_dir = Ok (part_file, body)
                ∧ reachable w' = true
                ∧ object_at w' (bucket storage)
                    (key storage (pystr "metrics_by_day.jsonl")) = Some body
    | Raise e =>
        (∀ b k, object_at w' b k = object_at w b k)
        ∧ (∀ e', steps spark input_path output_dir = Raise e' → w' = w ∧ e = e')
    end.
Proof.
  unfold run_job_try.
  destruct (steps spark input_path output_dir) as [[part body]|e0].
  - destruct (upload_file _ _ _ _ _ w) as [w1 r1] eqn:Hup.
    pose proof (upload_file_objects _ _ _ _ _ _ Hup) as [Hfr Hr].
    destruct r1 as [[]|e1]; intros [= <- <-].
    + split; [exact Hfr|]. exists body. by destruct Hr.
    + split; [exact Hfr|]. split; [exact Hr|done].
  - intros [= <- <-]. split; [done|]. split; [done|]. by intros e' [= <-].
Qed.

(** X4.  Whatever a run of the job returns or raises, it changes no object
    but the metrics object.  When [build_spark] raises, nothing else runs.
    Once the session is built, a [spark.stop()] that raises makes the run
    raise what it raised, whatever the [try] block did.  A run that raises
    has left the metrics object as it was too, unless its upload succeeded
    and [stop] raised afterwards; so, when [stop] returns, a run that raises
    has written nothing: a failure of Spark or of [mkdir] propagates with
    the store untouched, a write that leaves no part file raises
    [FileNotFoundError], and a failed upload stores nothing. *)
Theorem run_job_raises (input_path output_dir : str)
    (storage : S3Storage) (w w' : S3) (r : result str) :
  job input_path output_dir storage w = (w', r) →
  (∀ b k, (b, k) ≠ metrics_object storage → object_at w' b k = object_at w b k)
  ∧ (∀ e', build_spark = Raise e' → w' = w ∧ r = Raise e')
  ∧ (∀ spark e', build_spark = Ok spark → spark_stop spark = Raise e' →
       r = Raise e')
  ∧ (∀ e, r = Raise e →
       ((∀ b k, object_at w' b k = object_at w b k)
        ∨ ∃ spark part_file body,
            build_spark = Ok spark
            ∧ job_try spark input_path output_dir storage w = (w', Ok part_file)
            ∧ steps spark input_path output_dir = Ok (part_file, body)
            ∧ spark_stop spark = Raise e
            ∧ object_at w' (bucket storage)
                (key storage (pystr "metrics_by_day.jsonl")) = Some body)
       ∧ (∀ spark, build_spark = Ok spark → spark_stop spark = Ok () →
            (∀ b k, object_at w' b k = object_at w b k)
            ∧ (∀ e', stage input_path output_dir = Raise e' → w' = w ∧ e = e')
            ∧ (∀ agg, spark_transform spark input_path = Ok agg →
                      mkdir output_dir = Ok () →
                      spark_write_json agg output_dir = Ok [] →
                      e = FileNotFoundError))).
Proof.
  unfold run_job, run_job_stage. intros Hjob.
  destruct build_spark as [spark|e0].
  2:{ injection Hjob as <- <-. split_and!; try done.
      - by intros e' [= <-].
      - intros e [= <-]. split; [by left|done]. }
  unfold try_finally in Hjob.
  destruct (job_try spark input_path output_dir storage w) as [w1 r1] eqn:Htry.
  pose proof (run_job_try_objects _ _ _ _ _ _ _ Htry) as [Hfr Hr].
  destruct (spark_stop spark) as [[]|e_stop] eqn:Hstop.
  - injection Hjob as <- <-. split_and!; try done.
    + intros spark' e' [= <-]. by rewrite Hstop.
    + intros e ->. destruct Hr as [Hall Hsteps]. split; [by left|].
      intros spark' [= <-] _. rewrite result_bind_Ok. split_and!; [done|done|].
      intros agg Ht Hm Hw.
      assert (steps spark input_path output_dir = Raise FileNotFoundError) as Hst.
      { unfold run_job_steps, write_metrics_jsonl.
        rewrite Ht, result_bind_Ok, Hm, result_bind_Ok, Hw. done. }
      by destruct (Hsteps _ Hst) as [_ ->].
  - injection Hjob as <- <-. split_and!; try done.
    + intros spark' e' [= <-]. rewrite Hstop. by intros [= <-].
    + intros e [= <-]. split.
      * destruct r1 as [part_file|e1].
        -- destruct Hr as (body & Hsteps & _ & Hobj).
           right. by exists spark, part_file, body.
        -- left. by destruct Hr.
      * intros spark' [= <-]. by rewrite Hstop.
Qed.

(** X5.  A run of the job that returns has stored what the first part file
    holds under the metrics key, and changed no other object; the service
    configured with the same bucket and prefix then loads exactly the rows
    of that file. *)
Theorem run_job_then_load_metrics (cfg : Settings) (input_path output_dir : str)
    (w w' : S3) (part_file : str) :
  job input_path output_dir
    (S3Storage_init (s3_bucket cfg) (Some (s3_prefix cfg))) w = (w', Ok part_file) →
  ∃ body,
    stage input_path output_dir = Ok (part_file, body)
    ∧ object_at w' (bucket (storage (AnalyticsService_init cfg)))
        (metrics_key (AnalyticsService_init cfg)) = Some body
    ∧ (∀ b k, (b, k) ≠ (bucket (storage (AnalyticsService_init cfg)),
                         metrics_key (AnalyticsService_init cfg)) →
              object_at w' b k = object_at w b k)
    ∧ (∀ text, Utf8.decode body = Some text →
               load_metrics w' (AnalyticsService_init cfg)
               = load_rows (splitlines text) []).
Proof.
  unfold run_job, run_job_stage. intros Hjob.
  destruct build_spark as [spark|e0]; [|done].
  unfold try_finally in Hjob.
  destruct (job_try spark input_path output_dir _ w) as [w1 r] eqn:Htry.
  destruct (spark_stop spark) as [[]|e_stop]; [|done].
  injection Hjob as <- ->.
  pose proof (run_job_try_objects _ _ _ _ _ _ _ Htry) as [Hfr (body & Hsteps & Hr & Hobj)].
  exists body. rewrite result_bind_Ok. split_and!; [done|exact Hobj|exact Hfr|].
  intros text Hd. unfold load_metrics.
  erewrite download_text_object; [done|exact Hr|exact Hobj|exact Hd].
Qed.

End JobProperties.

Lemma run_job_raises_witness :
  let job_stop_raises :=
    run_job (fun _ => true) (fun _ => true) unit unit (Ok ())
      (fun _ _ => Ok ()) (fun _ => Ok ())
      (fun _ _ => Ok [(pystr "part-00000.json", list_byte_of_string metrics_ok)])
      (fun _ => Raise Py4JError)
      (pystr "events.jsonl") (pystr "out") (storage default_service) in
  (job_stop_raises empty_store).2 = Raise Py4JError
  ∧ object_at (job_stop_raises empty_store).1
      (bucket (storage default_service)) (metrics_key default_service)
    = Some (list_byte_of_string metrics_ok)
  ∧ object_at (job_stop_raises empty_store).1
      (bucket (storage default_service)) (pystr "other")
    = object_at empty_store (bucket (storage default_service)) (pystr "other").
Proof.
  intros j.
  destruct (run_job_raises _ _ _ _ _ _ _ _ _ _ _ _ _ _ _
              (surjective_pairing (j empty_store)))
    as (Hframe & _ & Hstop & _).
  split; [exact (Hstop () Py4JError eq_refl eq_refl)|].
  split; [vm_compute; reflexivity|].
  apply Hframe. vm_compute. discriminate.
Defined.

Lemma run_job_then_load_metrics_witness :
  let job_with_part_file :=
    run_job (fun _ => true) (fun _ => true) unit unit (Ok ())
      (fun _ _ => Ok ()) (fun _ => Ok ())
      (fun _ _ => Ok [(pystr "part-00000.json", list_byte_of_string metrics_ok)])
      (fun _ => Ok ())
      (pystr "events.jsonl") (pystr "out")
      (S3Storage_init (s3_bucket default_settings) (Some (s3_prefix default_settings)))
      {| reachable := true; buckets := ∅ |} in
  job_with_part_file.2 = Ok (pystr "part-00000.json")
  ∧ load_metrics job_with_part_file.1 (AnalyticsService_init default_settings)
    = Ok metrics_ok_rows.
Proof.
  intros j.
  assert (j = (j.1, Ok (pystr "part-00000.json"))) as Hjob
    by (vm_compute; reflexivity).
  split; [by rewrite Hjob|].
  destruct (run_job_then_load_metrics _ _ _ _ _ _ _ _ _ default_settings _ _ _ _ _ Hjob)
    as (body & Hstage & _ & _ & Hload).
  assert (body = list_byte_of_string metrics_ok) as ->.
  { vm_compute in Hstage. injection Hstage as <-. vm_compute. reflexivity. }
  rewrite (Hload (pystr metrics_ok)) by (vm_compute; reflexivity).
  vm_compute. reflexivity.
Defined.

(** ** The route of the document search *)

Section RouteProperties.
Context (Vectorizer Matrix : Type).
Context (fit_transform : list str → result (Vectorizer * Matrix)).
Context (similarities : Vectorizer → Matrix → str → list Qc).
Context (str_lower str_title : str → str).
Context (Model Body : Type).
Context (DocumentSearchResponse : str → list DocumentResult → result Model).
Context (send_response : Model → result Body).

#[local] Abbreviation route :=
  (docs_search Vectorizer Matrix similarities str_lower str_title Model Body
     DocumentSearchResponse send_response).
#[local] Abbreviation store_search :=
  (search Vectorizer Matrix similarities str_lower str_title).

(** X6.  On a store that has been built, the route [/docs/search] answers
    422 exactly when [q] is missing or shorter than two characters or [k]
    (3 unless given) is outside 1..10.  Otherwise [search] returns, with as
    many results as [k] or the number of documents, whichever is less: the
    answer is 200 with the body made of these results, or the 500 of the
    exception that the making of the response raised; no 500 comes from
    [search]. *)
Theorem docs_search_bounded (dir : list dir_entry)
    (store : DocumentStore Vectorizer Matrix) (q : option str) (k : option Z) :
  row_per_document Vectorizer Matrix fit_transform similarities →
  _load_documents Vectorizer Matrix fit_transform dir = Ok store →
  let valid_request (q' : str) (results : list DocumentResult) :=
    q = Some q' ∧ (2 ≤ length q')%nat ∧ 1 ≤ default 3 k ≤ 10
    ∧ store_search store q' (default 3 k) = Ok results
    ∧ Z.of_nat (length results)
      = Z.min (default 3 k) (Z.of_nat (length (_documents _ _ store))) in
  match route store q k with
  | Http200 body =>
      ∃ q' results model,
        valid_request q' results
        ∧ DocumentSearchResponse q' results = Ok model
        ∧ send_response model = Ok body
  | Http422 =>
      q = None ∨ (∃ q', q = Some q' ∧ (length q' < 2)%nat)
      ∨ ¬ (1 ≤ default 3 k ≤ 10)
  | Http500 e =>
      ∃ q' results,
        valid_request q' results
        ∧ (DocumentSearchResponse q' results = Raise e
           ∨ ∃ model, DocumentSearchResponse q' results = Ok model
                      ∧ send_response model = Raise e)
  end.
Proof.
  intros Hrows Hload valid_request. unfold docs_search.
  destruct q as [q'|]; [|by left].
  destruct (decide (2 ≤ length q')%nat) as [Hq|Hq];
    [|right; left; exists q'; split; [done|lia]].
  destruct (decide (1 ≤ default 3 k ≤ 10)) as [Hk|Hk]; [|by right; right].
  assert (∃ results, valid_request q' results) as (results & Hvalid).
  { unfold valid_request.
    destruct (decide (_documents _ _ store = [])) as [Hnil|Hne].
    - exists []. unfold search. rewrite Hnil. cbn. split_and!; try done; lia.
    - destruct (built_store_scores _ _ fit_transform similarities dir store
                  Hrows Hload Hne) as (v & m & Hv & Hm & Hlen).
      destruct (search_spec _ _ similarities str_lower str_title store v m q'
                  (default 3 k) Hne Hv Hm (Hlen q')) as (results & Hs & Hres).
      exists results. split_and!; try done; try lia.
      apply Forall2_length in Hres. rewrite <- Hres. unfold slice_to.
      assert (length (rank (similarities v m q')) = length (_documents _ _ store))
        as Hrank.
      { rewrite rank_Permutation. unfold enumerate. by rewrite length_imap. }
      destruct (Z.leb_spec 0 (default 3 k)); [|lia].
      rewrite length_take, Hrank. lia. }
  pose proof Hvalid as (_ & _ & _ & Hs & _). rewrite Hs, result_bind_Ok.
  destruct (DocumentSearchResponse q' results) as [model|e] eqn:Hmodel.
  - rewrite result_bind_Ok. destruct (send_response model) as [body|e] eqn:Hsend.
    + by exists q', results, model.
    + exists q', results. split; [done|]. right. by exists model.
  - exists q', results. split; [done|]. by left.
Qed.

End RouteProperties.

Lemma docs_search_bounded_witness :
  ∃ results,
    docs_search unit (list str) toy_similarities id id
      (str * list DocumentResult) (str * list DocumentResult)
      (fun q results => Ok (q, results)) Ok toy_store_ops_support
      (Some (pystr "latency")) None = Http200 (pystr "latency", results)
    ∧ length results = 2%nat.
Proof.
  pose proof (docs_search_bounded unit (list str) toy_fit_transform
                toy_similarities id id
                (str * list DocumentResult) (str * list DocumentResult)
                (fun q results => Ok (q, results)) Ok
                docs_ops_support toy_store_ops_support
                (Some (pystr "latency")) None toy_row_per_document
                toy_load_ops_support) as H.
  cbv zeta in H.
  destruct (docs_search unit (list str) toy_similarities id id _ _ _ _
              toy_store_ops_support (Some (pystr "latency")) None)
    as [body| |e] eqn:E.
  - destruct H as (q' & results & model & (Hq & _ & _ & _ & Hlen) & Hmodel & Hsend).
    injection Hq as <-. injection Hmodel as <-. injection Hsend as <-.
    exists results. split; [done|].
    assert (length (_documents unit (list str) toy_store_ops_support) = 2%nat)
      as Hdocs by (vm_compute; reflexivity).
    rewrite Hdocs in Hlen. cbn in Hlen. lia.
  - exfalso. revert E. vm_compute. discriminate.
  - exfalso. revert E. vm_compute. discriminate.
Defined.

(** ** More on the summary *)

Lemma sum_list_Permutation (l k : list Z) : l ≡ₚ k → sum_list l = sum_list k.
Proof.
  unfold sum_list. induction 1; cbn; lia.
Qed.

Lemma date_min_unique d ds d' ds' :
  d :: ds ≡ₚ d' :: ds' → date_min d ds = date_min d' ds'.
Proof.
  intros Hp.
  destruct (date_min_spec d ds) as [Hin Hle].
  destruct (date_min_spec d' ds') as [Hin' Hle'].
  apply date_le_antisym.
  - apply Hle. by rewrite Hp.
  - apply Hle'. by rewrite <- Hp.
Qed.

Lemma date_max_unique d ds d' ds' :
  d :: ds ≡ₚ d' :: ds' → date_max d ds = date_max d' ds'.
Proof.
  intros Hp.
  destruct (date_max_spec d ds) as [Hin Hle].
  destruct (date_max_spec d' ds') as [Hin' Hle'].
  apply date_le_antisym.
  - apply Hle'. by rewrite <- Hp.
  - apply Hle. by rewrite Hp.
Qed.

Section SummaryMore.
Variable int_of_str : str → option Z.
Variable fromisoformat : str → option date.

(** X7.  The summary does not depend on the order of the metric rows: the
    totals, the date range and the value of every event type are the same
    for the rows in any order, and so are the keys of [event_types], up to
    their order. *)
Theorem summarize_order_independent (rows rows' : list value) :
  rows ≡ₚ rows' → metric_rows rows →
  ∃ s s',
    summarize int_of_str fromisoformat rows = Ok s
    ∧ summarize int_of_str fromisoformat rows' = Ok s'
    ∧ total_events s = total_events s'
    ∧ daily_unique_users_sum s = daily_unique_users_sum s'
    ∧ dates s = dates s'
    ∧ (∀ t, types_get (event_types s) (VStr t) 0
            = types_get (event_types s') (VStr t) 0)
    ∧ (event_types s).*1 ≡ₚ (event_types s').*1.
Proof.
  intros Hp Hrows.
  assert (metric_rows rows') as Hrows'.
  { unfold metric_rows in *. by rewrite <- Hp. }
  destruct (summarize_daily int_of_str fromisoformat rows Hrows)
    as (s & Hs & Htot & Huniq & Htypes & Hkeys & Hnd & Hdates).
  destruct (summarize_daily int_of_str fromisoformat rows' Hrows')
    as (s' & Hs' & Htot' & Huniq' & Htypes' & Hkeys' & Hnd' & Hdates').
  exists s, s'. split_and!; [done|done| | | | |].
  - rewrite Htot, Htot'. apply sum_list_Permutation. by rewrite Hp.
  - rewrite Huniq, Huniq'. apply sum_list_Permutation. by rewrite Hp.
  - rewrite Hdates, Hdates'.
    assert (omap (event_date_of fromisoformat) rows
            ≡ₚ omap (event_date_of fromisoformat) rows') as Ho by (by rewrite Hp).
    destruct (omap _ rows) as [|d ds], (omap _ rows') as [|d' ds']; [done| | |].
    + by apply Permutation_nil_cons in Ho.
    + symmetry in Ho. by apply Permutation_nil_cons in Ho.
    + by rewrite (date_min_unique _ _ _ _ Ho), (date_max_unique _ _ _ _ Ho).
  - intros t. rewrite Htypes, Htypes'. f_equal. unfold count_of_type.
    apply sum_list_Permutation. by rewrite Hp.
  - apply NoDup_Permutation; [done..|]. intros key. rewrite Hkeys, Hkeys'.
    split; intros (r & Hr & ->); exists r; (split; [|done]).
    + by rewrite <- Hp.
    + by rewrite Hp.
Qed.

(** X8.  While there is no data, the summary is empty, not an error: when
    the download of the metrics fails, [summary] returns zero totals, no
    event type and no date range. *)
Theorem summary_without_data (w : S3) (self : AnalyticsService) (e : exn) :
  download_text w (storage self) (metrics_key self) = Raise e →
  summary int_of_str fromisoformat w self
  = Ok {| total_events := 0; event_types := []; dates := None;
          daily_unique_users_sum := 0 |}.
Proof.
  intros Hd. unfold summary, load_metrics. by rewrite Hd.
Qed.

Lemma raises_bind_l {A B} (m : result A) (f : A → result B) :
  raises m → raises (m ≫= f).
Proof. intros [e ->]. by exists e. Qed.

Lemma raises_bind_r {A B} (m : result A) (f : A → result B) :
  (∀ a, raises (f a)) → raises (m ≫= f).
Proof. intros Hf. destruct m as [a|e]; [apply Hf|by exists e]. Qed.

Lemma summary_loop_raises rows1 row rows2 st :
  (∀ st', raises (summary_row int_of_str fromisoformat st' row)) →
  raises (summary_loop int_of_str fromisoformat (rows1 ++ row :: rows2) st).
Proof.
  intros Hrow. revert st. induction rows1 as [|r rows1 IH]; intros st; cbn.
  - destruct (Hrow st) as [e ->]. by exists e.
  - destruct (summary_row int_of_str fromisoformat st r) as [st1|e]; cbn.
    + apply IH.
    + by exists e.
Qed.

(** X9.  One bad row makes the summary fail, wherever it stands among the
    rows: a row that is not a JSON object, a row whose [event_count] or
    [unique_users] is null, and a row whose [event_date] is neither a
    string nor false (a number other than zero, [true], a list or object
    that is not empty).  A date string that does not parse is not such a
    row: it is skipped. *)
Theorem summarize_raises_on_bad_row (rows1 rows2 : list value) (row : value) :
  ((∀ d, row ≠ VDict d)
   ∨ member row "event_count" = Some VNull
   ∨ member row "unique_users" = Some VNull
   ∨ (∃ v, member row "event_date" = Some v ∧ truthy v = true
           ∧ ∀ s, v ≠ VStr s)) →
  raises (summarize int_of_str fromisoformat (rows1 ++ row :: rows2)).
Proof.
  intros Hbad.
  assert (∀ st, raises (summary_row int_of_str fromisoformat st row)) as Hrow.
  { intros st. unfold summary_row.
    destruct Hbad as [H|[H|[H|(v & H & Hv & Hs)]]].
    - apply raises_bind_l. unfold int_field. apply raises_bind_l.
      destruct row; try (by eexists). by destruct (H d).
    - apply raises_bind_l. destruct row as [| | | | | |d]; try done.
      unfold int_field, row_get, member in *. rewrite H. by eexists.
    - apply raises_bind_r. intros count. apply raises_bind_l.
      destruct row as [| | | | | |d]; try done.
      unfold int_field, row_get, member in *. rewrite H. by eexists.
    - do 5 (apply raises_bind_r; intros ?). apply raises_bind_l.
      destruct row as [| | | | | |d]; try done.
      unfold date_field, row_get, member in *.
      rewrite H, result_bind_Ok. cbn [default from_option id]. rewrite Hv.
      destruct v; try (by eexists). by destruct (Hs s). }
  unfold summarize.
  destruct (summary_loop_raises rows1 row rows2
              {| st_total := 0; st_unique := 0; st_types := []; st_dates := [] |}
              Hrow) as [e ->].
  by exists e.
Qed.

End SummaryMore.

Lemma summarize_order_independent_witness :
  ∃ s s',
    summarize IntOfStr.parse IsoDate.parse metrics_ok_rows = Ok s
    ∧ summarize IntOfStr.parse IsoDate.parse (reverse metrics_ok_rows) = Ok s'
    ∧ total_events s = total_events s'
    ∧ dates s = dates s'.
Proof.
  destruct (summarize_order_independent IntOfStr.parse IsoDate.parse
              metrics_ok_rows (reverse metrics_ok_rows))
    as (s & s' & Hs & Hs' & Htot & _ & Hdates & _).
  - symmetry. apply reverse_Permutation.
  - exact metrics_ok_rows_daily.
  - by exists s, s'.
Defined.

Lemma summary_without_data_witness :
  summary IntOfStr.parse IsoDate.parse empty_store default_service
  = Ok {| total_events := 0; event_types := []; dates := None;
          daily_unique_users_sum := 0 |}.
Proof.
  apply (summary_without_data IntOfStr.parse IsoDate.parse empty_store
           default_service NoSuchKey).
  vm_compute. reflexivity.
Defined.

Lemma summarize_raises_on_bad_row_witness :
  raises (summarize IntOfStr.parse IsoDate.parse
            (metrics_ok_rows ++ VList [] :: [])).
Proof.
  apply summarize_raises_on_bad_row. left. intros d. discriminate.
Defined.

(** ** Snippets *)

Lemma lstrip_suffix s : lstrip s `suffix_of` s.
Proof.
  induction s as [|c s IH]; cbn; [done|].
  destruct (isspace c); [by apply suffix_cons_r|done].
Qed.

Lemma lstrip_head s c : head (lstrip s) = Some c → isspace c = false.
Proof.
  induction s as [|x s IH]; cbn; [done|].
  destruct (isspace x) eqn:E; [done|]. cbn. by intros [= <-].
Qed.

Lemma rstrip_prefix s : rstrip s `prefix_of` s.
Proof.
  unfold rstrip. destruct (lstrip_suffix (reverse s)) as [k Hk].
  exists (reverse k). apply (f_equal reverse) in Hk.
  rewrite reverse_involutive, reverse_app in Hk. exact Hk.
Qed.

(** [strip s] is a part of [s] that neither begins nor ends with
    whitespace. *)
Lemma strip_spec s :
  (∃ a b, s = a ++ strip s ++ b)
  ∧ (∀ c, head (strip s) = Some c → isspace c = false)
  ∧ (∀ c, last (strip s) = Some c → isspace c = false).
Proof.
  unfold strip. split_and!.
  - destruct (lstrip_suffix s) as [a Ha]. destruct (rstrip_prefix (lstrip s)) as [b Hb].
    exists a, b. by rewrite <- Hb.
  - intros c Hc. destruct (rstrip_prefix (lstrip s)) as [b Hb].
    apply (lstrip_head s). rewrite Hb.
    destruct (rstrip (lstrip s)); [done|]. exact Hc.
  - intros c. unfold rstrip. rewrite last_reverse. apply lstrip_head.
Qed.

Section SnippetProperties.
Context (str_lower : str → str).

(** X10.  A snippet is a part of the text, of at most 160 characters,
    that neither begins nor ends with whitespace; when the query does not
    occur in the text, it is the beginning of the text, stripped. *)
Theorem snippet_bounds (text query : str) :
  (length (_snippet str_lower text query) ≤ 160)%nat
  ∧ (∃ a b, text = a ++ _snippet str_lower text query ++ b)
  ∧ (∀ c, head (_snippet str_lower text query) = Some c → isspace c = false)
  ∧ (∀ c, last (_snippet str_lower text query) = Some c → isspace c = false)
  ∧ (find_from (str_lower text) (str_lower query) 0 = None →
     _snippet str_lower text query = strip (take 160 text)).
Proof.
  assert (∀ part : str,
            (length part ≤ 160)%nat → (∃ a b, text = a ++ part ++ b) →
            (length (strip part) ≤ 160)%nat
            ∧ (∃ a b, text = a ++ strip part ++ b)
            ∧ (∀ c, head (strip part) = Some c → isspace c = false)
            ∧ (∀ c, last (strip part) = Some c → isspace c = false)) as Hpart.
  { intros part Hlen (a & b & Hab).
    destruct (strip_spec part) as ((a' & b' & Hp) & Hh & Hl).
    split_and!; [|exists (a ++ a'), (b' ++ b)|done..].
    - apply (f_equal length) in Hp. rewrite !length_app in Hp. lia.
    - rewrite Hab. rewrite Hp at 1. by rewrite <- !app_assoc. }
  unfold _snippet.
  destruct (find_from (str_lower text) (str_lower query) 0) as [pos|].
  - destruct (Hpart (slice text (pos - 160 `div` 4)
                       ((pos - 160 `div` 4 + 160) `min` length text)))
      as (H1 & H2 & H3 & H4).
    + unfold slice. rewrite length_drop, length_take. lia.
    + unfold slice.
      exists (take (pos - 160 `div` 4)
                (take ((pos - 160 `div` 4 + 160) `min` length text) text)),
             (drop ((pos - 160 `div` 4 + 160) `min` length text) text).
      by rewrite app_assoc, !take_drop.
    + by split_and!.
  - destruct (Hpart (take 160 text)) as (H1 & H2 & H3 & H4).
    + rewrite length_take. lia.
    + exists [], (drop 160 text). by rewrite take_drop.
    + by split_and!.
Qed.

End SnippetProperties.

(** ** More on the document store *)

Section DocumentStoreMore.
Context (Vectorizer Matrix : Type).
Context (fit_transform : list str → result (Vectorizer * Matrix)).
Context (similarities : Vectorizer → Matrix → str → list Qc).
Context (str_lower str_title : str → str).

(** X11.  The number of results of [search] on a store that has been
    built: [top_k] of them when there are as many documents, all of them
    otherwise; for a negative [top_k], all but the last [-top_k] of the
    ranking. *)
Theorem search_result_count (dir : list dir_entry)
    (s : DocumentStore Vectorizer Matrix) (query : str) (top_k : Z) :
  row_per_document Vectorizer Matrix fit_transform similarities →
  _load_documents Vectorizer Matrix fit_transform dir = Ok s →
  ∃ results,
    search Vectorizer Matrix similarities str_lower str_title s query top_k
    = Ok results
    ∧ length results
      = if 0 <=? top_k
        then (Z.to_nat top_k `min` length (_documents _ _ s))%nat
        else (length (_documents _ _ s) - Z.to_nat (- top_k))%nat.
Proof.
  intros Hrows Hload.
  destruct (decide (_documents _ _ s = [])) as [Hnil|Hne].
  - exists []. unfold search. rewrite Hnil. split; [done|]. cbn.
    destruct (0 <=? top_k); lia.
  - destruct (built_store_scores _ _ fit_transform similarities dir s
                Hrows Hload Hne) as (v & m & Hv & Hm & Hlen).
    destruct (search_spec _ _ similarities str_lower str_title s v m query
                top_k Hne Hv Hm (Hlen query)) as (results & Hfind & Hres).
    exists results. split; [done|].
    rewrite <- (Forall2_length _ _ _ Hres). unfold slice_to.
    assert (length (rank (similarities v m query)) = length (_documents _ _ s))
      as Hrank.
    { rewrite rank_Permutation. unfold enumerate. by rewrite length_imap. }
    destruct (0 <=? top_k); rewrite length_take, Hrank; lia.
Qed.

(** X12.  One entry that cannot be read makes the construction of the
    store fail: an entry named [*.md] that is a directory, or a file that
    is not UTF-8.  An entry with another name is never read. *)
Theorem load_documents_unreadable_entry (dir : list dir_entry) (e : dir_entry) :
  e ∈ dir → is_md (entry_name e) = true →
  (entry_node e = Directory
   ∨ ∃ content, entry_node e = File content ∧ Utf8.decode content = None) →
  raises (_load_documents Vectorizer Matrix fit_transform dir).
Proof.
  intros He Hmd Hbad.
  assert (raises (read_text e)) as [err Herr].
  { unfold read_text. destruct Hbad as [->|(content & -> & ->)]; by eexists. }
  destruct (result_ok_or_raises (_load_documents Vectorizer Matrix fit_transform dir))
    as [Hr|[s Hs]]; [done|]. exfalso.
  apply _load_documents_spec in Hs as [Hdocs _].
  assert (e ∈ py_sorted (fun a b => str_lt (entry_name a) (entry_name b))
                (glob_md dir)) as Hin.
  { rewrite py_sorted_Permutation. unfold glob_md. by apply list_elem_of_filter. }
  apply list_elem_of_lookup in Hin as [i Hi].
  destruct (Forall2_lookup_l _ _ _ _ _ Hdocs Hi) as (d & _ & Hdoc).
  unfold document_of in Hdoc. by rewrite Herr in Hdoc.
Qed.

End DocumentStoreMore.

Lemma search_result_count_witness :
  ∃ results,
    toy_search toy_store_ops_support (pystr "latency") 5 = Ok results
    ∧ length results = 2%nat.
Proof.
  destruct (search_result_count unit (list str) toy_fit_transform toy_similarities
              id id docs_ops_support toy_store_ops_support (pystr "latency") 5
              toy_row_per_document toy_load_ops_support) as (results & Hfind & Hlen).
  exists results. split; [exact Hfind|]. rewrite Hlen. reflexivity.
Defined.

Lemma load_documents_unreadable_entry_witness :
  raises (toy_load [text_file "ops.md" "Latency.";
                    {| entry_name := pystr "old.md"; entry_node := Directory |}]).
Proof.
  apply (load_documents_unreadable_entry unit (list str) toy_fit_transform _
           {| entry_name := pystr "old.md"; entry_node := Directory |}).
  - right. left.
  - vm_compute. reflexivity.
  - by left.
Defined.

Lemma snippet_bounds_witness :
  _snippet id (pystr "  no match here  ") (pystr "zzz") = pystr "no match here".
Proof.
  rewrite (proj2 (proj2 (proj2 (proj2
             (snippet_bounds id (pystr "  no match here  ") (pystr "zzz"))))))
    by (vm_compute; reflexivity).
  vm_compute. reflexivity.
Defined.

(** ** Document ids *)

Lemma rfind_dot_app a b i last :
  rfind_dot (a ++ b) i last = rfind_dot b (i + length a) (rfind_dot a i last).
Proof.
  revert i last. induction a as [|c a IH]; intros i last; cbn.
  - by rewrite Nat.add_0_r.
  - rewrite IH. f_equal. lia.
Qed.

(** X13.  The id of the document of a file [x.md] is [x], whatever [x] is,
    full stops included, unless [x] is empty: the file named [.md] is
    matched by the pattern and gets the id [.md], which is also the id of
    the file [.md.md]. *)
Theorem md_file_doc_id (x : str) :
  is_md (x ++ pystr ".md") = true
  ∧ stem (x ++ pystr ".md") = (if decide (x = []) then pystr ".md" else x)
  ∧ stem (pystr ".md.md") = stem (pystr ".md").
Proof.
  split_and!.
  - unfold is_md. apply bool_decide_eq_true. rewrite length_app.
    change (length (pystr ".md")) with 3%nat.
    replace (length x + 3 - 3)%nat with (length x + 0)%nat by lia.
    by rewrite drop_app_add.
  - unfold stem. rewrite rfind_dot_app.
    change (rfind_dot (pystr ".md") (0 + length x) (rfind_dot x 0 None))
      with (Some (0 + length x)%nat).
    rewrite length_app. change (length (pystr ".md")) with 3%nat.
    destruct x as [|c x]; [done|]. rewrite decide_False by done.
    rewrite bool_decide_eq_true_2 by (cbn; lia).
    change (0 + length (c :: x))%nat with (length (c :: x)).
    by rewrite take_app_length.
  - vm_compute. reflexivity.
Qed.
